(** * ProfileSettingsModal: a shallow embedding of the profile-settings editor

    The component is a React function component.  It is embedded here as an
    explicit state machine: the values held by [useState] form the modal
    state, the browser (storage, object URLs, timers, the host's callbacks)
    forms the host state, and every handler and effect is a function on
    the two.  JavaScript strings are sequences of UTF-16 code units. *)

From Stdlib Require Import Ascii String.
From stdpp Require Import gmap list strings pretty.

Local Set Warnings "-register-all,-clear-no-such-hyp".

(** ** JavaScript strings *)

Abbreviation jsstring := (list N).

(** The code units of an ASCII literal. *)
Definition js (s : string) : jsstring := N_of_ascii <$> list_ascii_of_string s.

(** WhiteSpace and LineTerminator code units, the ones [String.prototype.trim]
    removes. *)
Definition isWhiteSpace (c : N) : bool :=
  (bool_decide (c ∈ [9; 10; 11; 12; 13; 32; 160; 5760; 8232; 8233; 8239; 8287; 12288; 65279])
   || ((8192 <=? c) && (c <=? 8202)))%N.

Fixpoint trimStart (s : jsstring) : jsstring :=
  match s with
  | c :: r => if isWhiteSpace c then trimStart r else s
  | [] => []
  end.

Definition trimEnd (s : jsstring) : jsstring := reverse (trimStart (reverse s)).

Definition trim (s : jsstring) : jsstring := trimEnd (trimStart s).

(** [s.startsWith(p)]. *)
Fixpoint startsWith (s p : jsstring) {struct p} : bool :=
  match p with
  | [] => true
  | a :: p' =>
      match s with
      | b :: s' => bool_decide (a = b) && startsWith s' p'
      | [] => false
      end
  end.

(** [s.slice(0, n)]. *)
Definition slice0 (s : jsstring) (n : nat) : jsstring := take n s.

(** ToBoolean on a string: the empty string is the only falsy one. *)
Definition str_truthy (s : jsstring) : bool :=
  match s with [] => false | _ => true end.

(** ** Constants of the module *)

Definition BIO_MAX : nat := 100.
Definition DRAFT_KEY : jsstring := js "profile_settings_draft_v1".

(** ** The URL check *)

(** What the code reads from a parsed URL. *)
Record URL := { href : jsstring; hostname : jsstring }.

(** [url.hostname.replace(/^www\./, "")]: one leading "www." is removed. *)
Definition strip_www (host : jsstring) : jsstring :=
  if startsWith host (js "www.") then drop 4 host else host.

Definition allowed_hosts : list jsstring := [js "x.com"; js "twitter.com"].

(** ** JSON values

    A draft read back from storage is whatever [JSON.parse] returns; nothing
    checks its shape, so the values below are untyped. *)

Inductive JsNumber :=
| Finite (m e : Z)   (* m * 2^e *)
| Infinite (negative : bool)
| NaN.

Inductive JsValue :=
| JUndefined
| JNull
| JBool (b : bool)
| JNum (n : JsNumber)
| JStr (s : jsstring)
| JArr (elements : list JsValue)
| JObj (props : gmap jsstring JsValue).

Definition typeof (v : JsValue) : jsstring :=
  match v with
  | JUndefined => js "undefined"
  | JNull | JArr _ | JObj _ => js "object"
  | JBool _ => js "boolean"
  | JNum _ => js "number"
  | JStr _ => js "string"
  end.

Definition ToBoolean (v : JsValue) : bool :=
  match v with
  | JUndefined | JNull => false
  | JBool b => b
  | JNum (Finite m _) => negb (bool_decide (m = 0%Z))
  | JNum (Infinite _) => true
  | JNum NaN => false
  | JStr s => str_truthy s
  | JArr _ | JObj _ => true
  end.

(** The own enumerable properties of a value: what object spread copies. *)
Definition own_props (v : JsValue) : gmap jsstring JsValue :=
  match v with
  | JObj props => props
  | JArr l => list_to_map (imap (λ i x, (js (pretty i), x)) l)
  | JStr s => list_to_map (imap (λ i c, (js (pretty i), JStr [c])) s)
  | _ => ∅
  end.

(** [{ ...target, ...source }]: properties of the source win. *)
Definition spread (target : gmap jsstring JsValue) (source : JsValue)
  : gmap jsstring JsValue :=
  own_props source ∪ target.

(** Property read [o.k]. *)
Definition get (o : gmap jsstring JsValue) (k : jsstring) : JsValue :=
  default JUndefined (o !! k).

(** ** Exceptions *)

Inductive Completion (A : Type) :=
| Return (a : A)
| Throws.
Arguments Return {A} a.
Arguments Throws {A}.

(** ** localStorage *)

Record Storage := {
  items : gmap jsstring jsstring;
  denied : bool;   (* every access raises SecurityError *)
  full : bool      (* setItem raises QuotaExceededError *)
}.

Definition getItem (ls : Storage) (key : jsstring) : Completion (option jsstring) :=
  if denied ls then Throws else Return (items ls !! key).

Definition setItem (ls : Storage) (key value : jsstring) : Completion Storage :=
  if denied ls || full ls then Throws
  else Return {| items := <[key := value]> (items ls);
                 denied := denied ls; full := full ls |}.

(** ** The record edited by the modal *)

Record ProfileSettingsValues := {
  avatarUrl : option jsstring;   (* string | null *)
  name : jsstring;
  bio : jsstring;
  twitterLink : jsstring;
  streamerMode : bool
}.

Global Instance ProfileSettingsValues_eq_dec : EqDecision ProfileSettingsValues.
Proof. solve_decision. Defined.

(** [Partial<ProfileSettingsValues>], as the host passes it. *)
Record PartialValues := {
  p_avatarUrl : option (option jsstring);
  p_name : option jsstring;
  p_bio : option jsstring;
  p_twitterLink : option jsstring;
  p_streamerMode : option bool
}.

Definition of_opt_string (o : option jsstring) : JsValue :=
  match o with Some s => JStr s | None => JNull end.

(** The object literal holding a values record. *)
Definition to_object (v : ProfileSettingsValues) : JsValue :=
  JObj (<[js "avatarUrl" := of_opt_string (avatarUrl v)]>
       (<[js "name" := JStr (name v)]>
       (<[js "bio" := JStr (bio v)]>
       (<[js "twitterLink" := JStr (twitterLink v)]>
       (<[js "streamerMode" := JBool (streamerMode v)]> ∅))))).

(** The per-field error messages; a field without an error is [None]. *)
Record Errors := {
  err_name : option jsstring;
  err_bio : option jsstring;
  err_twitterLink : option jsstring
}.

Definition no_errors : Errors :=
  {| err_name := None; err_bio := None; err_twitterLink := None |}.

(** [Object.keys(next).length === 0]. *)
Definition no_keys (e : Errors) : bool :=
  match err_name e, err_bio e, err_twitterLink e with
  | None, None, None => true
  | _, _, _ => false
  end.

(** ** A sample platform

    Stand-ins for the platform functions, used to run the component on the
    worked examples below.  They cover the inputs of those examples only. *)

(** The host of an "https://host/..." text: the code units up to the first
    "/", "?" or "#". *)
Fixpoint sample_host (s : jsstring) : jsstring :=
  match s with
  | [] => []
  | c :: r => if bool_decide (c ∈ [47; 63; 35]%N) then [] else c :: sample_host r
  end.

Definition sample_new_URL (value : jsstring) : option URL :=
  if startsWith value (js "https://")
  then
    let host := sample_host (drop 8 value) in
    if str_truthy host then Some {| href := value; hostname := host |} else None
  else None.

(** The text [{"bio":5}]. *)
Definition sample_raw : jsstring :=
  js "{" ++ [34%N] ++ js "bio" ++ [34%N] ++ js ":5}".

(** Parses [sample_raw] and nothing else. *)
Definition sample_JSON_parse (raw : jsstring) : Completion JsValue :=
  if bool_decide (raw = sample_raw)
  then Return (JObj {[ js "bio" := JNum (Finite 5 0) ]})
  else Throws.

Fixpoint join (sep : jsstring) (parts : list jsstring) : jsstring :=
  match parts with
  | [] => []
  | [x] => x
  | x :: rest => x ++ sep ++ join sep rest
  end.

(** Serialises a flat record; strings are not escaped. *)
Definition sample_JSON_stringify (v : JsValue) : jsstring :=
  let flat (x : JsValue) : jsstring :=
    match x with
    | JBool true => js "true"
    | JBool false => js "false"
    | JStr s => [34%N] ++ s ++ [34%N]
    | _ => js "null"
    end in
  match v with
  | JObj props =>
      js "{"
      ++ join (js ",") ((λ kx, [34%N] ++ fst kx ++ [34%N] ++ js ":" ++ flat (snd kx))
                          <$> map_to_list props)
      ++ js "}"
  | _ => flat v
  end.

Definition sample_blob_id (n : nat) : jsstring := js "https://app.example/" ++ js (pretty n).

Definition empty_storage : Storage := {| items := ∅; denied := false; full := false |}.

(** The error messages as the specification words them. *)
Definition spec_bio_message : jsstring := js "Bio must be " ++ [8804%N] ++ js "100 characters.".
Definition spec_link_message : jsstring := js "Enter a valid link.".

(** ** Class names *)

(** An argument of [cx]: a string, or one of [false], [null], [undefined]
    ([None]).  [Boolean] keeps the non-empty strings. *)
Definition Boolean_class (c : option jsstring) : bool :=
  match c with Some s => str_truthy s | None => false end.

(** [classes.filter(Boolean).join(" ")] *)
Definition cx (classes : list (option jsstring)) : jsstring :=
  join (js " ") (default [] <$> filter (λ c, Boolean_class c = true) classes).

(** ** Scroll lock

    The effect that sets [document.body.style.overflow]: it returns the new
    value of the style and the previous one, which its cleanup holds. *)
Definition lock_scroll (overflow : jsstring) : jsstring * jsstring :=
  (js "hidden", overflow).

(** The cleanup: [document.body.style.overflow = prev]. *)
Definition restore_scroll (prev overflow : jsstring) : jsstring := prev.

(** [n] modals mounted one after the other: the style, and the cleanups held,
    the most recent first. *)
Fixpoint lock_n (n : nat) (overflow : jsstring) : jsstring * list jsstring :=
  match n with
  | 0 => (overflow, [])
  | S k =>
      let '(o, held) := lock_n k overflow in
      let '(o', prev) := lock_scroll o in
      (o', prev :: held)
  end.

(** The cleanups run in the order given. *)
Definition restore_all (held : list jsstring) (overflow : jsstring) : jsstring :=
  foldl (λ o prev, restore_scroll prev o) overflow held.

(** ** RoundTimer

    The countdown, on whole seconds. *)

(** [s.padStart(targetLength, padString)] *)
Definition padStart (targetLength : nat) (padString s : jsstring) : jsstring :=
  let missing := targetLength - length s in
  take missing (mjoin (replicate missing padString)) ++ s.

Module RoundTimer.

Definition formatTime (totalSeconds : Z) : jsstring :=
  let safeSeconds := Z.max 0 totalSeconds in
  let minutes := (safeSeconds / 60)%Z in
  let secs := Z.rem safeSeconds 60 in
  js (pretty minutes) ++ js ":" ++ padStart 2 (js "0") (js (pretty secs)).


End RoundTimer.

(** The variant of the timer that stops at zero. *)
Module RoundTimer2.

Definition formatTime (totalSeconds : Z) : jsstring :=
  let minutes := (totalSeconds / 60)%Z in
  let secs := Z.rem totalSeconds 60 in
  js (pretty minutes) ++ js ":" ++ padStart 2 (js "0") (js (pretty secs)).


End RoundTimer2.

(** ** NewsRibbon *)

Module NewsRibbon.

Record State := {
  isVisible : bool;
  isPaused : bool;
  closed : nat      (* calls of the [onClose] prop so far *)
}.

Inductive Event := ClickClose | MouseEnter | MouseLeave.

Global Instance Event_eq_dec : EqDecision Event.
Proof. solve_decision. Defined.

Definition initial : State := {| isVisible := true; isPaused := false; closed := 0 |}.

(** [onClose]: whether the prop is given.  A hidden ribbon renders nothing,
    so no handler can run. *)
Definition step (onClose : bool) (s : State) (ev : Event) : State :=
  if isVisible s
  then
    match ev with
    | ClickClose =>
        {| isVisible := false; isPaused := isPaused s;
           closed := if onClose then S (closed s) else closed s |}
    | MouseEnter => {| isVisible := true; isPaused := true; closed := closed s |}
    | MouseLeave => {| isVisible := true; isPaused := false; closed := closed s |}
    end
  else s.

Definition run (onClose : bool) (s : State) (evs : list Event) : State :=
  foldl (step onClose) s evs.

End NewsRibbon.

Section Component.

Set Default Proof Using "Type".

(** The platform and the host, as far as the component calls them.
    [new_URL] is the URL constructor ([None]: it throws TypeError);
    [JSON_parse] and [JSON_stringify] are the JSON object; [File] is what
    a file input yields; [blob_id n] is the unique part of the [n]-th object
    URL the page creates. *)
Variable new_URL : jsstring → option URL.
Variable JSON_parse : jsstring → Completion JsValue.
Variable JSON_stringify : JsValue → jsstring.
Variable File : Type.
Variable blob_id : nat → jsstring.

(** *** Validator *)

Definition isValidTwitterUrl (value : jsstring) : bool :=
  if negb (str_truthy (trim value)) then true
  else
    match new_URL value with
    | Some url =>
        let host := strip_www (hostname url) in
        bool_decide (host = js "x.com") || bool_decide (host = js "twitter.com")
    | None => false
    end.

(** [validate]: the error record it passes to [setErrors], and its result. *)
Definition validate (v : ProfileSettingsValues) : Errors * bool :=
  let next :=
    {| err_name :=
         if negb (str_truthy (trim (name v)))
         then Some (js "Name cannot be empty.") else None;
       err_bio :=
         if BIO_MAX <? length (bio v)
         then Some (js "Bio must be " ++ js (pretty BIO_MAX) ++ js " characters or fewer.")
         else None;
       err_twitterLink :=
         if negb (isValidTwitterUrl (twitterLink v))
         then Some (js "Enter a valid X/Twitter URL.") else None |} in
  (next, no_keys next).

(** *** Draft store *)

Definition readDraft (ls : Storage) : option JsValue :=
  match getItem ls DRAFT_KEY with
  | Throws => None
  | Return None => None
  | Return (Some raw) =>
      if negb (str_truthy raw) then None
      else
        match JSON_parse raw with
        | Throws => None
        | Return parsed =>
            if negb (ToBoolean parsed)
               || negb (bool_decide (typeof parsed = js "object"))
            then None
            else Some parsed
        end
  end.

Definition writeDraft (draft : ProfileSettingsValues) (ls : Storage) : Storage :=
  match setItem ls DRAFT_KEY (JSON_stringify (to_object draft)) with
  | Return ls' => ls'
  | Throws => ls
  end.

(** *** Initial values *)

Definition defaults (initialValues : option PartialValues) : ProfileSettingsValues :=
  {| avatarUrl := default None (initialValues ≫= p_avatarUrl);
     name := default [] (initialValues ≫= p_name);
     bio := default [] (initialValues ≫= p_bio);
     twitterLink := default [] (initialValues ≫= p_twitterLink);
     streamerMode := default false (initialValues ≫= p_streamerMode) |}.

Definition merged (initialValues : option PartialValues) (draft : option JsValue)
  : gmap jsstring JsValue :=
  spread (spread ∅ (to_object (defaults initialValues))) (default (JObj ∅) draft).

(** [initial]: the merge, with a string bio cut to [BIO_MAX] code units. *)
Definition initial (initialValues : option PartialValues) (draft : option JsValue)
  : gmap jsstring JsValue :=
  let merged := merged initialValues draft in
  match get merged (js "bio") with
  | JStr s =>
      if BIO_MAX <? length s
      then <[js "bio" := JStr (slice0 s BIO_MAX)]> merged
      else merged
  | _ => merged
  end.

(** The five values handed to [useState]; they are untyped at run time. *)
Record InitialState := {
  init_avatarPreviewUrl : JsValue;
  init_name : JsValue;
  init_bio : JsValue;
  init_twitterLink : JsValue;
  init_streamerMode : JsValue
}.

Definition useState_initial (initial : gmap jsstring JsValue) : InitialState :=
  {| init_avatarPreviewUrl := get initial (js "avatarUrl");
     init_name := get initial (js "name");
     init_bio := get initial (js "bio");
     init_twitterLink := get initial (js "twitterLink");
     init_streamerMode := get initial (js "streamerMode") |}.

Definition initial_state (initialValues : option PartialValues) (ls : Storage)
  : InitialState :=
  useState_initial (initial initialValues (readDraft ls)).

(** The state at its declared types, when the initial values have them.  The
    handlers below are embedded at these types. *)
Definition as_string (v : JsValue) : option jsstring :=
  match v with JStr s => Some s | _ => None end.

Definition as_string_or_null (v : JsValue) : option (option jsstring) :=
  match v with JNull => Some None | JStr s => Some (Some s) | _ => None end.

Definition as_boolean (v : JsValue) : option bool :=
  match v with JBool b => Some b | _ => None end.

Definition typed (i : InitialState) : option ProfileSettingsValues :=
  a ← as_string_or_null (init_avatarPreviewUrl i);
  n ← as_string (init_name i);
  b ← as_string (init_bio i);
  t ← as_string (init_twitterLink i);
  s ← as_boolean (init_streamerMode i);
  Some {| avatarUrl := a; name := n; bio := b; twitterLink := t; streamerMode := s |}.

(** *** The host: clock, storage, object URLs, and a log of calls *)

Inductive Call :=
| CreateObjectURL (file : File) (url : jsstring)
| RevokeObjectURL (url : jsstring)
| WriteDraft (draft : ProfileSettingsValues)
| ConsoleLog (payload : ProfileSettingsValues)
| ToastSuccess (title description : jsstring)
| PreventDefault
| OnClose.

Record Host := {
  clock : nat;                    (* milliseconds *)
  localStorage : Storage;
  blobs_made : nat;
  blobs_live : gset jsstring;     (* object URLs created and not revoked *)
  calls : list (nat * Call)       (* oldest first, each with its time *)
}.

Definition set_clock (t : nat) (h : Host) : Host :=
  {| clock := t; localStorage := localStorage h; blobs_made := blobs_made h;
     blobs_live := blobs_live h; calls := calls h |}.

Definition log (c : Call) (h : Host) : Host :=
  {| clock := clock h; localStorage := localStorage h; blobs_made := blobs_made h;
     blobs_live := blobs_live h; calls := calls h ++ [(clock h, c)] |}.

Definition createObjectURL (file : File) (h : Host) : jsstring * Host :=
  let url := js "blob:" ++ blob_id (blobs_made h) in
  (url,
   log (CreateObjectURL file url)
     {| clock := clock h; localStorage := localStorage h;
        blobs_made := S (blobs_made h);
        blobs_live := {[url]} ∪ blobs_live h; calls := calls h |}).

Definition revokeObjectURL (url : jsstring) (h : Host) : Host :=
  log (RevokeObjectURL url)
    {| clock := clock h; localStorage := localStorage h; blobs_made := blobs_made h;
       blobs_live := blobs_live h ∖ {[url]}; calls := calls h |}.

(** A call of [writeDraft], with its effect on storage. *)
Definition call_writeDraft (draft : ProfileSettingsValues) (h : Host) : Host :=
  log (WriteDraft draft)
    {| clock := clock h; localStorage := writeDraft draft (localStorage h);
       blobs_made := blobs_made h; blobs_live := blobs_live h; calls := calls h |}.

(** [if (avatarPreviewUrl?.startsWith("blob:")) URL.revokeObjectURL(avatarPreviewUrl)] *)
Definition revoke_if_blob (avatarPreviewUrl : option jsstring) (h : Host) : Host :=
  match avatarPreviewUrl with
  | Some url => if startsWith url (js "blob:") then revokeObjectURL url h else h
  | None => h
  end.

(** *** The mounted component *)

Record Modal := {
  values : ProfileSettingsValues;   (* avatarPreviewUrl, name, bio, twitterLink, streamerMode *)
  errors : Errors;
  timer : option (nat * ProfileSettingsValues)   (* pending timeout: deadline, captured values *)
}.

Definition DEBOUNCE : nat := 150.

(** The effects React runs after a render whose previous values were [old]:
    an effect runs again only when one of its dependencies changed.  The
    cleanup of the object-URL effect sees the previous [avatarPreviewUrl]; the
    cleanup of the draft effect clears the pending timeout and the effect sets
    a new one that captures the current values. *)
Definition commit (old : ProfileSettingsValues) (m : Modal) (h : Host) : Modal * Host :=
  let h' :=
    if decide (avatarUrl old = avatarUrl (values m)) then h
    else revoke_if_blob (avatarUrl old) h in
  let m' :=
    if decide (old = values m) then m
    else {| values := values m; errors := errors m;
            timer := Some (clock h + DEBOUNCE, values m) |} in
  (m', h').

Definition with_values (v : ProfileSettingsValues) (m : Modal) : Modal :=
  {| values := v; errors := errors m; timer := timer m |}.

Definition with_errors (e : Errors) (m : Modal) : Modal :=
  {| values := values m; errors := e; timer := timer m |}.

(** [if (errors.f) setErrors((p) => ({ ...p, f: undefined }))] *)
Definition err_truthy (e : option jsstring) : bool :=
  match e with Some msg => str_truthy msg | None => false end.

Definition onChange_name (value : jsstring) (m : Modal) : Modal :=
  let v := values m in
  let e := errors m in
  {| values := {| avatarUrl := avatarUrl v; name := value; bio := bio v;
                  twitterLink := twitterLink v; streamerMode := streamerMode v |};
     errors := if err_truthy (err_name e)
               then {| err_name := None; err_bio := err_bio e;
                       err_twitterLink := err_twitterLink e |}
               else e;
     timer := timer m |}.

Definition onChange_bio (value : jsstring) (m : Modal) : Modal :=
  let v := values m in
  let e := errors m in
  {| values := {| avatarUrl := avatarUrl v; name := name v; bio := value;
                  twitterLink := twitterLink v; streamerMode := streamerMode v |};
     errors := if err_truthy (err_bio e)
               then {| err_name := err_name e; err_bio := None;
                       err_twitterLink := err_twitterLink e |}
               else e;
     timer := timer m |}.

Definition onChange_twitterLink (value : jsstring) (m : Modal) : Modal :=
  let v := values m in
  let e := errors m in
  {| values := {| avatarUrl := avatarUrl v; name := name v; bio := bio v;
                  twitterLink := value; streamerMode := streamerMode v |};
     errors := if err_truthy (err_twitterLink e)
               then {| err_name := err_name e; err_bio := err_bio e;
                       err_twitterLink := None |}
               else e;
     timer := timer m |}.

Definition toggle_streamerMode (m : Modal) : Modal :=
  let v := values m in
  with_values {| avatarUrl := avatarUrl v; name := name v; bio := bio v;
                 twitterLink := twitterLink v;
                 streamerMode := negb (streamerMode v) |} m.

Definition setAvatarPreviewUrl (url : option jsstring) (m : Modal) : Modal :=
  let v := values m in
  with_values {| avatarUrl := url; name := name v; bio := bio v;
                 twitterLink := twitterLink v; streamerMode := streamerMode v |} m.

Definition handleUploadChange (file : option File) (m : Modal) (h : Host)
  : Modal * Host :=
  match file with
  | None => (m, h)
  | Some f =>
      let h1 := revoke_if_blob (avatarUrl (values m)) h in
      let '(url, h2) := createObjectURL f h1 in
      (setAvatarPreviewUrl (Some url) m, h2)
  end.

Definition payload_of (v : ProfileSettingsValues) : ProfileSettingsValues :=
  {| avatarUrl := avatarUrl v;
     name := trim (name v);
     bio := slice0 (bio v) BIO_MAX;
     twitterLink := trim (twitterLink v);
     streamerMode := streamerMode v |}.

Definition saved_toast : Call :=
  ToastSuccess (js "Profile settings saved")
               (js "Your changes have been stored on this device.").

Definition handleSave (m : Modal) (h : Host) : Modal * Host :=
  let '(next, ok) := validate (values m) in
  let m1 := with_errors next m in
  if negb ok then (m1, h)
  else
    let payload := payload_of (values m) in
    let h1 := log (ConsoleLog payload) h in
    let h2 := call_writeDraft payload h1 in
    let h3 := log saved_toast h2 in
    (m1, log OnClose h3).

(** The window [keydown] listener. *)
Definition onKey (key : jsstring) (h : Host) : Host :=
  if bool_decide (key = js "Escape") then log OnClose (log PreventDefault h) else h.

(** [inside]: whether [modalRef.current] contains the event target; the ref
    is set for as long as the component is mounted. *)
Definition handleBackdropMouseDown (inside : bool) (h : Host) : Host :=
  if negb inside then log OnClose h else h.

(** *** The component as a transition system *)

Inductive Event :=
| ChangeName (value : jsstring)
| ChangeBio (value : jsstring)
| ChangeTwitterLink (value : jsstring)
| ToggleStreamerMode
| UploadChange (file : option File)
| Save
| CloseButton
| KeyDown (key : jsstring)
| BackdropMouseDown (inside : bool)
| Elapse (dt : nat)
| Unmount.

(** [modal = None]: the component is not mounted. *)
Record System := {
  modal : option Modal;
  host : Host
}.

(** Mounting: the state is initialised, and the draft effect sets its first
    timeout.  [None] when the restored draft puts a value outside the declared
    field types into the state. *)
Definition mount (initialValues : option PartialValues) (h : Host) : option System :=
  match typed (initial_state initialValues (localStorage h)) with
  | Some v =>
      Some {| modal := Some {| values := v; errors := no_errors;
                               timer := Some (clock h + DEBOUNCE, v) |};
              host := h |}
  | None => None
  end.

(** Time passes; a pending timeout whose deadline is reached runs its
    callback, at the deadline. *)
Definition elapse (dt : nat) (m : Modal) (h : Host) : Modal * Host :=
  let target := clock h + dt in
  match timer m with
  | Some (deadline, snapshot) =>
      if deadline <=? target
      then
        let h1 := call_writeDraft snapshot (set_clock (Nat.max (clock h) deadline) h) in
        ({| values := values m; errors := errors m; timer := None |},
         set_clock target h1)
      else (m, set_clock target h)
  | None => (m, set_clock target h)
  end.

(** Unmounting runs the cleanups: the object-URL cleanup, and the draft
    cleanup that clears the pending timeout. *)
Definition unmount (m : Modal) (h : Host) : Host :=
  revoke_if_blob (avatarUrl (values m)) h.

Definition mounted (mh : Modal * Host) : System :=
  {| modal := Some (fst mh); host := snd mh |}.

(** A handler that only sets state, followed by the render it causes. *)
Definition render_after (f : Modal → Modal) (m : Modal) (h : Host) : System :=
  mounted (commit (values m) (f m) h).

Definition step (s : System) (ev : Event) : System :=
  match modal s with
  | None =>
      match ev with
      | Elapse dt => {| modal := None; host := set_clock (clock (host s) + dt) (host s) |}
      | _ => s
      end
  | Some m =>
      let h := host s in
      match ev with
      | ChangeName value => render_after (onChange_name value) m h
      | ChangeBio value => render_after (onChange_bio value) m h
      | ChangeTwitterLink value => render_after (onChange_twitterLink value) m h
      | ToggleStreamerMode => render_after toggle_streamerMode m h
      | UploadChange file =>
          let '(m1, h1) := handleUploadChange file m h in
          mounted (commit (values m) m1 h1)
      | Save => mounted (handleSave m h)
      | CloseButton => {| modal := Some m; host := log OnClose h |}
      | KeyDown key => {| modal := Some m; host := onKey key h |}
      | BackdropMouseDown inside =>
          {| modal := Some m; host := handleBackdropMouseDown inside h |}
      | Elapse dt => mounted (elapse dt m h)
      | Unmount => {| modal := None; host := unmount m h |}
      end
  end.

Definition run (s : System) (evs : list Event) : System := foldl step s evs.

(** *** Observations on the log *)

(** The calls logged by [h'] beyond those of [h]. *)
Definition calls_since (h h' : Host) : list (nat * Call) :=
  drop (length (calls h)) (calls h').

Definition is_OnClose (c : nat * Call) : bool :=
  match snd c with OnClose => true | _ => false end.

Definition is_toast (c : nat * Call) : bool :=
  match snd c with ToastSuccess _ _ => true | _ => false end.

Definition draft_write (c : nat * Call) : option (nat * ProfileSettingsValues) :=
  match snd c with WriteDraft d => Some (fst c, d) | _ => None end.

Definition revoked (c : nat * Call) : option jsstring :=
  match snd c with RevokeObjectURL u => Some u | _ => None end.

Definition close_count (l : list (nat * Call)) : nat := length (filter is_OnClose l).
Definition toast_count (l : list (nat * Call)) : nat := length (filter is_toast l).
Definition draft_writes (l : list (nat * Call)) : list (nat * ProfileSettingsValues) :=
  omap draft_write l.
Definition revocations (l : list (nat * Call)) : list jsstring := omap revoked l.

(** *** Predicates and observations used in the statements *)

(** A logged call is admissible when, if it revokes an object URL, that URL
    starts with "blob:". *)
Definition marked (c : nat * Call) : Prop :=
  match snd c with
  | RevokeObjectURL url => startsWith url (js "blob:") = true
  | _ => True
  end.

(** [h'] logs the calls of [h] followed by admissible calls. *)
Definition extends (h h' : Host) : Prop :=
  ∃ l, calls h' = calls h ++ l ∧ Forall marked l.

(** The two dismissal signals: Escape, and a pointer-down outside the modal
    surface. *)
Definition dismissal (ev : Event) : Prop :=
  ev = KeyDown (js "Escape") ∨ ev = BackdropMouseDown false.

(** What [revoke_if_blob] logs and removes. *)
Definition revoke_calls (t : nat) (a : option jsstring) : list (nat * Call) :=
  match a with
  | Some url => if startsWith url (js "blob:") then [(t, RevokeObjectURL url)] else []
  | None => []
  end.

Definition revoke_set (a : option jsstring) : gset jsstring :=
  match a with
  | Some url => if startsWith url (js "blob:") then {[url]} else ∅
  | None => ∅
  end.

(** The field mutations a user can make. *)
Inductive Edit :=
| SetName (value : jsstring)
| SetBio (value : jsstring)
| SetTwitterLink (value : jsstring)
| ToggleStreamer
| Upload (file : File).

Definition edit_event (e : Edit) : Event :=
  match e with
  | SetName value => ChangeName value
  | SetBio value => ChangeBio value
  | SetTwitterLink value => ChangeTwitterLink value
  | ToggleStreamer => ToggleStreamerMode
  | Upload file => UploadChange (Some file)
  end.

(** The values the component holds. *)
Definition current (s : System) : option ProfileSettingsValues := values <$> modal s.

(** An edit is a mutation when it changes a value. *)
Definition mutates (s : System) (e : Edit) : Prop :=
  current (step s (edit_event e)) ≠ current s.

(** The mutations of a burst after its first one, each with the time since
    the previous mutation, which is below the debounce delay. *)
Fixpoint burst (s : System) (rest : list (nat * Edit)) : Prop :=
  match rest with
  | [] => True
  | (gap, e) :: rest' =>
      gap < DEBOUNCE ∧ mutates (step s (Elapse gap)) e ∧
      burst (step (step s (Elapse gap)) (edit_event e)) rest'
  end.

Definition burst_events (rest : list (nat * Edit)) : list Event :=
  rest ≫= λ ge, [Elapse (fst ge); edit_event (snd ge)].

Definition pending (s0 s : System) : Prop :=
  ∃ m, modal s = Some m ∧
       timer m = Some (clock (host s) + DEBOUNCE, values m) ∧
       extends (host s0) (host s) ∧
       draft_writes (calls_since (host s0) (host s)) = [].

(** *** Further predicates *)

(** What [typeof v === "object"] lets through once [null] is excluded. *)
Definition is_object (v : JsValue) : Prop :=
  match v with JObj _ | JArr _ => True | _ => False end.

(** A values record with its bio cut to [BIO_MAX] code units. *)
Definition cut_bio (v : ProfileSettingsValues) : ProfileSettingsValues :=
  {| avatarUrl := avatarUrl v; name := name v; bio := slice0 (bio v) BIO_MAX;
     twitterLink := twitterLink v; streamerMode := streamerMode v |}.

(** The object URL the component displays, as a set. *)
Definition shown (a : option jsstring) : gset jsstring :=
  match a with Some url => {[url]} | None => ∅ end.

(** No object URL is live but the one on display; none once unmounted. *)
Definition tidy (s : System) : Prop :=
  match modal s with
  | Some m =>
      ∀ url, url ∈ blobs_live (host s) →
             avatarUrl (values m) = Some url ∧ startsWith url (js "blob:") = true
  | None => blobs_live (host s) = ∅
  end.

(** Field by field, [e'] keeps the error of [e] or has none. *)
Definition cleared (e' e : Errors) : Prop :=
  (err_name e' = err_name e ∨ err_name e' = None) ∧
  (err_bio e' = err_bio e ∨ err_bio e' = None) ∧
  (err_twitterLink e' = err_twitterLink e ∨ err_twitterLink e' = None).

(** A decimal digit. *)
Definition is_digit (c : N) : Prop := (48 ≤ c ≤ 57)%N.

(** The property names the component reads from [initial]. *)
Definition field_names : list jsstring :=
  [js "avatarUrl"; js "name"; js "bio"; js "twitterLink"; js "streamerMode"].

(** ** Properties *)

(** *** Strings *)

Lemma trimStart_nil (s : jsstring) :
  trimStart s = [] ↔ Forall (λ c, isWhiteSpace c = true) s.
Proof.
  induction s as [|c r IH]; simpl.
  - split; [constructor | reflexivity].
  - destruct (isWhiteSpace c) eqn:Hc.
    + rewrite IH. split; [by constructor | by inversion 1].
    + split; [discriminate | inversion 1; congruence].
Qed.

Lemma trimStart_head (s : jsstring) :
  trimStart s = [] ∨ ∃ c r, trimStart s = c :: r ∧ isWhiteSpace c = false.
Proof.
  induction s as [|c r IH]; simpl; [by left |].
  destruct (isWhiteSpace c) eqn:Hc; [exact IH | right; eauto].
Qed.

Lemma reverse_eq_nil {A} (l : list A) : reverse l = [] ↔ l = [].
Proof.
  split; [| intros ->; apply reverse_nil].
  destruct l as [|x l]; [done |].
  rewrite reverse_cons. by destruct (reverse l).
Qed.

(** [trim] leaves nothing exactly when every code unit is white space. *)
Lemma trim_nil (s : jsstring) :
  trim s = [] ↔ Forall (λ c, isWhiteSpace c = true) s.
Proof.
  unfold trim, trimEnd.
  rewrite reverse_eq_nil, trimStart_nil, Forall_reverse.
  destruct (trimStart_head s) as [H | (c & r & H & Hc)].
  - rewrite H. split; [intros _; by apply trimStart_nil | constructor].
  - split.
    + rewrite H. inversion 1; congruence.
    + intros Hs%trimStart_nil. congruence.
Qed.

Lemma startsWith_app (p r : jsstring) : startsWith (p ++ r) p = true.
Proof.
  induction p as [|a p IH]; simpl; [done |].
  rewrite bool_decide_eq_true_2 by done. exact IH.
Qed.

Lemma strip_www_prefixed (r : jsstring) : strip_www (js "www." ++ r) = r.
Proof. unfold strip_www. by rewrite startsWith_app. Qed.

Lemma strip_www_other (host : jsstring) :
  startsWith host (js "www.") = false → strip_www host = host.
Proof. unfold strip_www. by intros ->. Qed.

(** *** Validator *)

Lemma isValidTwitterUrl_blank (value : jsstring) :
  trim value = [] → isValidTwitterUrl value = true.
Proof. unfold isValidTwitterUrl. by intros ->. Qed.

Lemma isValidTwitterUrl_nonblank (value : jsstring) :
  trim value ≠ [] →
  isValidTwitterUrl value = true ↔
  ∃ url, new_URL value = Some url ∧ strip_www (hostname url) ∈ allowed_hosts.
Proof.
  intros Hne. unfold isValidTwitterUrl, allowed_hosts.
  destruct (trim value) as [|c r]; [done |]. simpl.
  destruct (new_URL value) as [url|].
  - rewrite orb_true_iff, !bool_decide_eq_true. split.
    + intros H. exists url. split; [done |].
      rewrite !elem_of_cons. destruct H; auto.
    + intros (u & [= <-] & H). revert H.
      rewrite !elem_of_cons, elem_of_nil. intros [? | [? | []]]; auto.
  - split; [done | by intros (u & ? & _)].
Qed.

(** C4.  The link check accepts every value that is empty or white space
    only; any other value is accepted exactly when the URL constructor parses it
    and its hostname, less one leading "www.", is one of the two allowed hosts,
    so a value the constructor rejects is refused.  The five sample values of
    the specification behave as it says, given the hostnames the platform
    reports for the three URLs among them. *)
Theorem isValidTwitterUrl_spec :
  hostname <$> new_URL (js "https://example.com/x") = Some (js "example.com") →
  hostname <$> new_URL (js "https://www.x.com/handle") = Some (js "www.x.com") →
  hostname <$> new_URL (js "https://twitter.com/handle") = Some (js "twitter.com") →
  (∀ value, Forall (λ c, isWhiteSpace c = true) value →
            isValidTwitterUrl value = true) ∧
  (∀ value, ¬ Forall (λ c, isWhiteSpace c = true) value →
            isValidTwitterUrl value = true ↔
            ∃ url, new_URL value = Some url ∧
                   strip_www (hostname url) ∈ allowed_hosts) ∧
  (∀ value, ¬ Forall (λ c, isWhiteSpace c = true) value →
            new_URL value = None → isValidTwitterUrl value = false) ∧
  allowed_hosts = [js "x.com"; js "twitter.com"] ∧
  (∀ r, strip_www (js "www." ++ r) = r) ∧
  (∀ host, startsWith host (js "www.") = false → strip_www host = host) ∧
  isValidTwitterUrl (js "") = true ∧
  isValidTwitterUrl (js "   ") = true ∧
  isValidTwitterUrl (js "https://example.com/x") = false ∧
  isValidTwitterUrl (js "https://www.x.com/handle") = true ∧
  isValidTwitterUrl (js "https://twitter.com/handle") = true.
Proof.
  intros Hex Hx Htw.
  split; [intros v Hv; by apply isValidTwitterUrl_blank, trim_nil |].
  split; [intros v Hv; apply isValidTwitterUrl_nonblank; by rewrite trim_nil |].
  split.
  { intros v Hv Hnone. rewrite <- trim_nil in Hv.
    unfold isValidTwitterUrl. rewrite Hnone.
    by destruct (trim v). }
  split; [done |].
  split; [apply strip_www_prefixed |].
  split; [apply strip_www_other |].
  split; [done |]. split; [done |].
  unfold isValidTwitterUrl.
  destruct (new_URL (js "https://example.com/x")) as [u1|]; [| done].
  destruct (new_URL (js "https://www.x.com/handle")) as [u2|]; [| done].
  destruct (new_URL (js "https://twitter.com/handle")) as [u3|]; [| done].
  cbn in Hex, Hx, Htw.
  injection Hex as Hex. injection Hx as Hx. injection Htw as Htw.
  rewrite Hex, Hx, Htw. done.
Qed.

Lemma bio_message :
  js "Bio must be " ++ js (pretty BIO_MAX) ++ js " characters or fewer."
  = js "Bio must be 100 characters or fewer.".
Proof. reflexivity. Qed.

Lemma validate_name (v : ProfileSettingsValues) :
  err_name (fst (validate v))
  = if decide (trim (name v) = []) then Some (js "Name cannot be empty.") else None.
Proof. simpl. by destruct (trim (name v)). Qed.

Lemma validate_bio (v : ProfileSettingsValues) :
  err_bio (fst (validate v))
  = if decide (100 < length (bio v))
    then Some (js "Bio must be 100 characters or fewer.") else None.
Proof.
  unfold validate. cbn [fst err_bio]. rewrite bio_message. unfold BIO_MAX.
  destruct (Nat.ltb_spec 100 (length (bio v))); case_decide; (done || lia).
Qed.

Lemma validate_twitterLink (v : ProfileSettingsValues) :
  err_twitterLink (fst (validate v))
  = if isValidTwitterUrl (twitterLink v) then None
    else Some (js "Enter a valid X/Twitter URL.").
Proof. simpl. by destruct (isValidTwitterUrl (twitterLink v)). Qed.

(** [validate] answers [true] exactly when no field fails. *)
Lemma validate_ok (v : ProfileSettingsValues) :
  snd (validate v) = true ↔
  trim (name v) ≠ [] ∧ length (bio v) ≤ 100 ∧ isValidTwitterUrl (twitterLink v) = true.
Proof.
  unfold validate, no_keys, BIO_MAX. simpl.
  destruct (trim (name v)) as [|c r]; simpl;
    destruct (Nat.ltb_spec 100 (length (bio v)));
    destruct (isValidTwitterUrl (twitterLink v)); simpl;
    split; try done; try (intros (? & ? & ?); (done || lia));
    intros _; repeat split; (done || lia).
Qed.

(** C9 (as amended).  [validate] reports a bio error exactly when the bio is
    longer than 100 code units, with the message "Bio must be 100 characters or
    fewer."; it reports a link error exactly when the link check fails, with
    the message "Enter a valid X/Twitter URL.". *)
Theorem validate_bio_link_messages (v : ProfileSettingsValues) :
  let e := fst (validate v) in
  (is_Some (err_bio e) ↔ 100 < length (bio v)) ∧
  (∀ msg, err_bio e = Some msg → msg = js "Bio must be 100 characters or fewer.") ∧
  (is_Some (err_twitterLink e) ↔ isValidTwitterUrl (twitterLink v) = false) ∧
  (∀ msg, err_twitterLink e = Some msg → msg = js "Enter a valid X/Twitter URL.").
Proof.
  intros e. subst e. rewrite validate_bio, validate_twitterLink.
  repeat split.
  - case_decide; [done | by intros [? ?]].
  - intros H. by rewrite decide_True.
  - case_decide; congruence.
  - destruct (isValidTwitterUrl _); [by intros [? ?] | done].
  - intros ->. eauto.
  - destruct (isValidTwitterUrl _); congruence.
Qed.

(** *** Save *)

Lemma validate_no_errors (v : ProfileSettingsValues) :
  snd (validate v) = true → fst (validate v) = no_errors.
Proof.
  unfold validate, no_keys. cbn [fst snd].
  set (e := Build_Errors _ _ _). destruct e as [[?|] [?|] [?|]]; by cbn.
Qed.

Lemma handleSave_reject (m : Modal) (h : Host) :
  snd (validate (values m)) = false →
  handleSave m h = (with_errors (fst (validate (values m))) m, h).
Proof.
  unfold handleSave. destruct (validate (values m)) as [next ok].
  cbn [fst snd]. by intros ->.
Qed.

Lemma handleSave_accept (m : Modal) (h : Host) :
  snd (validate (values m)) = true →
  handleSave m h
  = (with_errors no_errors m,
     log OnClose
       (log saved_toast
          (call_writeDraft (payload_of (values m))
             (log (ConsoleLog (payload_of (values m))) h)))).
Proof.
  intros Hok. pose proof (validate_no_errors _ Hok) as Hne.
  unfold handleSave. destruct (validate (values m)) as [next ok].
  cbn in Hok, Hne. by subst.
Qed.

Lemma calls_since_app (h h' : Host) (l : list (nat * Call)) :
  calls h' = calls h ++ l → calls_since h h' = l.
Proof. unfold calls_since. intros ->. by rewrite drop_app_length. Qed.

Lemma writeDraft_stored (draft : ProfileSettingsValues) (ls : Storage) :
  denied ls = false → full ls = false →
  items (writeDraft draft ls) !! DRAFT_KEY = Some (JSON_stringify (to_object draft)).
Proof.
  intros Hd Hf. unfold writeDraft, setItem. rewrite Hd, Hf. simpl.
  apply lookup_insert_eq.
Qed.

(** C1.  On a state whose fields pass validation, save builds the payload with
    the name and the link trimmed and the bio cut to at most 100 code units,
    writes exactly that payload to the draft store (once), requests the success
    toast once and calls the close callback once; the storage slot then holds
    the serialised payload whenever storage accepts the write. *)
Theorem handleSave_valid (m : Modal) (h : Host) :
  trim (name (values m)) ≠ [] →
  length (bio (values m)) ≤ 100 →
  isValidTwitterUrl (twitterLink (values m)) = true →
  let v := values m in
  let payload :=
    {| avatarUrl := avatarUrl v; name := trim (name v); bio := take 100 (bio v);
       twitterLink := trim (twitterLink v); streamerMode := streamerMode v |} in
  let m' := fst (handleSave m h) in
  let h' := snd (handleSave m h) in
  length (bio payload) ≤ 100 ∧
  calls h' = calls h ++ [(clock h, ConsoleLog payload); (clock h, WriteDraft payload);
                         (clock h, saved_toast); (clock h, OnClose)] ∧
  draft_writes (calls_since h h') = [(clock h, payload)] ∧
  toast_count (calls_since h h') = 1 ∧
  close_count (calls_since h h') = 1 ∧
  localStorage h' = writeDraft payload (localStorage h) ∧
  (denied (localStorage h) = false → full (localStorage h) = false →
   items (localStorage h') !! DRAFT_KEY = Some (JSON_stringify (to_object payload))) ∧
  values m' = v ∧ errors m' = no_errors.
Proof.
  intros Hname Hbio Hlink v payload m' h'.
  assert (Hok : snd (validate (values m)) = true) by by apply validate_ok.
  subst m' h'. rewrite (handleSave_accept m h Hok). cbn [fst snd].
  change (payload_of (values m)) with payload.
  assert (Hcalls :
    calls (log OnClose (log saved_toast
             (call_writeDraft payload (log (ConsoleLog payload) h))))
    = calls h ++ [(clock h, ConsoleLog payload); (clock h, WriteDraft payload);
                  (clock h, saved_toast); (clock h, OnClose)]).
  { cbn. by rewrite <- !app_assoc. }
  split; [cbn; rewrite length_take; lia |].
  split; [exact Hcalls |].
  rewrite (calls_since_app _ _ _ Hcalls).
  repeat split; try done.
  intros Hd Hf. cbn. by apply writeDraft_stored.
Qed.

(** C2.  On a state with a failing field, save stores the errors of exactly the
    failing fields and does nothing else: the host (storage, log of calls) is
    unchanged, so nothing is written and the close callback is not called.
    With the empty defaults and no stored draft, the errors are the name
    message alone and the modal stays mounted. *)
Theorem handleSave_invalid (m : Modal) (h h0 : Host) :
  trim (name (values m)) = [] ∨ 100 < length (bio (values m))
  ∨ isValidTwitterUrl (twitterLink (values m)) = false →
  items (localStorage h0) !! DRAFT_KEY = None →
  let v := values m in
  let m' := fst (handleSave m h) in
  let empty_defaults :=
    Some {| p_avatarUrl := None; p_name := Some (js ""); p_bio := Some (js "");
            p_twitterLink := Some (js ""); p_streamerMode := Some false |} in
  (snd (handleSave m h) = h ∧ values m' = v ∧ timer m' = timer m ∧
   (is_Some (err_name (errors m')) ↔ trim (name v) = []) ∧
   (is_Some (err_bio (errors m')) ↔ 100 < length (bio v)) ∧
   (is_Some (err_twitterLink (errors m')) ↔ isValidTwitterUrl (twitterLink v) = false)) ∧
  (∃ s, mount empty_defaults h0 = Some s ∧
        host (step s Save) = h0 ∧
        (errors <$> modal (step s Save))
        = Some {| err_name := Some (js "Name cannot be empty.");
                  err_bio := None; err_twitterLink := None |}).
Proof.
  intros Hbad Hnone v m' defs. split.
  - assert (Hko : snd (validate (values m)) = false).
    { destruct (snd (validate (values m))) eqn:E; [| done].
      apply validate_ok in E as (? & ? & ?).
      destruct Hbad as [? | [? | ?]]; [done | lia | congruence]. }
    subst m' v. rewrite (handleSave_reject m h Hko).
    cbn [fst snd with_errors values errors timer].
    rewrite validate_name, validate_bio, validate_twitterLink.
    repeat split; try done.
    + case_decide; [done | by intros [? ?]].
    + intros H. rewrite decide_True by done. eauto.
    + case_decide; [done | by intros [? ?]].
    + intros H. rewrite decide_True by done. eauto.
    + destruct (isValidTwitterUrl _); [by intros [? ?] | done].
    + intros ->. eauto.
  - assert (Hread : readDraft (localStorage h0) = None).
    { unfold readDraft, getItem. rewrite Hnone. by destruct (denied _). }
    unfold mount, initial_state. rewrite Hread.
    eexists. split; [reflexivity |]. split; reflexivity.
Qed.

(** *** Initial values *)

Lemma merged_lookup (iv : option PartialValues) (draft : option JsValue) (k : jsstring) :
  merged iv draft !! k
  = match own_props (default (JObj ∅) draft) !! k with
    | Some v => Some v
    | None => own_props (to_object (defaults iv)) !! k
    end.
Proof.
  unfold merged, spread. rewrite !lookup_union, lookup_empty.
  destruct (own_props (default (JObj ∅) draft) !! k);
    destruct (own_props (to_object (defaults iv)) !! k); reflexivity.
Qed.

Lemma get_merged (iv : option PartialValues) (draft : option JsValue)
      (k : jsstring) (dflt : JsValue) :
  own_props (to_object (defaults iv)) !! k = Some dflt →
  get (merged iv draft) k = default dflt (own_props (default (JObj ∅) draft) !! k).
Proof.
  intros H. unfold get. rewrite merged_lookup, H.
  by destruct (own_props (default (JObj ∅) draft) !! k).
Qed.

(** Cutting the bio touches no other property. *)
Lemma get_initial_other (iv : option PartialValues) (draft : option JsValue) (k : jsstring) :
  k ≠ js "bio" → get (initial iv draft) k = get (merged iv draft) k.
Proof.
  intros Hk. unfold initial.
  destruct (get (merged iv draft) (js "bio")) as [| | | |s| |]; try done.
  destruct (BIO_MAX <? length s); [| done].
  unfold get. by rewrite lookup_insert_ne.
Qed.

Lemma get_initial_bio (iv : option PartialValues) (draft : option JsValue) :
  get (initial iv draft) (js "bio")
  = match get (merged iv draft) (js "bio") with
    | JStr s => if 100 <? length s then JStr (take 100 s) else JStr s
    | v => v
    end.
Proof.
  unfold initial, BIO_MAX, slice0.
  destruct (get (merged iv draft) (js "bio")) as [| | | |s| |] eqn:E; try done.
  destruct (100 <? length s); [| done].
  unfold get. by rewrite lookup_insert_eq.
Qed.

(** C3.  Each initial value is the stored draft's property when the draft has
    it and the default otherwise; a merged bio that is a string of more than
    100 code units is cut to its first 100, and a shorter one is kept. *)
Theorem initial_merge (iv : option PartialValues) (draft : option JsValue) :
  let d := own_props (default (JObj ∅) draft) in
  let dflt := defaults iv in
  let st := useState_initial (initial iv draft) in
  let merged_bio := default (JStr (bio dflt)) (d !! js "bio") in
  init_avatarPreviewUrl st
    = default (of_opt_string (avatarUrl dflt)) (d !! js "avatarUrl") ∧
  init_name st = default (JStr (name dflt)) (d !! js "name") ∧
  init_twitterLink st = default (JStr (twitterLink dflt)) (d !! js "twitterLink") ∧
  init_streamerMode st = default (JBool (streamerMode dflt)) (d !! js "streamerMode") ∧
  (∀ s, merged_bio = JStr s → 100 < length s →
        init_bio st = JStr (take 100 s) ∧ length (take 100 s) = 100) ∧
  (∀ s, merged_bio = JStr s → length s ≤ 100 → init_bio st = JStr s).
Proof.
  intros d dflt st merged_bio. subst st. unfold useState_initial.
  cbn [init_avatarPreviewUrl init_name init_bio init_twitterLink init_streamerMode].
  rewrite !get_initial_other by (by vm_compute).
  rewrite get_initial_bio.
  rewrite (get_merged iv draft (js "avatarUrl") (of_opt_string (avatarUrl dflt))) by done.
  rewrite (get_merged iv draft (js "name") (JStr (name dflt))) by done.
  rewrite (get_merged iv draft (js "twitterLink") (JStr (twitterLink dflt))) by done.
  rewrite (get_merged iv draft (js "streamerMode") (JBool (streamerMode dflt))) by done.
  rewrite (get_merged iv draft (js "bio") (JStr (bio dflt))) by done.
  fold d. fold merged_bio.
  do 4 (split; [reflexivity |]). split.
  - intros s -> Hs. split; [| rewrite length_take; lia].
    by apply Nat.ltb_lt in Hs as ->.
  - intros s -> Hs. by apply Nat.ltb_ge in Hs as ->.
Qed.

(** C10.  When storage holds a text that parses to an object whose bio is not
    a string, the draft is returned as parsed, whatever its fields hold, and
    that bio becomes the initial bio unchanged: it is neither cut nor
    replaced by the default, and the state is then outside its declared
    types. *)
Theorem initial_bio_untyped (iv : option PartialValues) (ls : Storage)
        (raw : jsstring) (props : gmap jsstring JsValue) (b : JsValue) :
  getItem ls DRAFT_KEY = Return (Some raw) →
  raw ≠ [] →
  JSON_parse raw = Return (JObj props) →
  props !! js "bio" = Some b →
  (∀ s, b ≠ JStr s) →
  readDraft ls = Some (JObj props) ∧
  init_bio (initial_state iv ls) = b ∧
  typed (initial_state iv ls) = None.
Proof.
  intros Hget Hraw Hparse Hbio Hb.
  assert (Hread : readDraft ls = Some (JObj props)).
  { unfold readDraft. rewrite Hget. destruct raw as [|c raw]; [done |].
    cbn [str_truthy negb]. by rewrite Hparse. }
  assert (Hinit : init_bio (initial_state iv ls) = b).
  { unfold initial_state, useState_initial. rewrite Hread.
    cbn [init_bio]. rewrite get_initial_bio.
    rewrite (get_merged iv _ (js "bio") (JStr (bio (defaults iv)))) by done.
    change (own_props (default (JObj ∅) (Some (JObj props)))) with props.
    rewrite Hbio. change (default (JStr (bio (defaults iv))) (Some b)) with b.
    destruct b; try done. by destruct (Hb s). }
  repeat split; [done | done |].
  assert (Hns : as_string b = None).
  { destruct b; try done. by destruct (Hb s). }
  unfold typed. rewrite Hinit, Hns.
  destruct (as_string_or_null (init_avatarPreviewUrl (initial_state iv ls))); [| done].
  by destruct (as_string (init_name (initial_state iv ls))).
Qed.

(** *** The log only grows, and every revocation in it carries the marker *)

Lemma extends_refl (h : Host) : extends h h.
Proof. exists []. by rewrite app_nil_r. Qed.

Lemma extends_trans (h1 h2 h3 : Host) : extends h1 h2 → extends h2 h3 → extends h1 h3.
Proof.
  intros (l1 & E1 & F1) (l2 & E2 & F2). exists (l1 ++ l2).
  split; [by rewrite E2, E1, app_assoc | by apply Forall_app].
Qed.

Lemma extends_log (c : Call) (h h' : Host) :
  extends h h' → marked (clock h', c) → extends h (log c h').
Proof.
  intros H Hc. apply (extends_trans _ _ _ H).
  exists [(clock h', c)]. split; [done | by constructor].
Qed.

Lemma extends_set_clock (t : nat) (h h' : Host) :
  extends h h' → extends h (set_clock t h').
Proof.
  intros H. apply (extends_trans _ _ _ H). exists []. by rewrite app_nil_r.
Qed.

Lemma extends_revoke_if_blob (a : option jsstring) (h h' : Host) :
  extends h h' → extends h (revoke_if_blob a h').
Proof.
  intros H. unfold revoke_if_blob. destruct a as [url|]; [| done].
  destruct (startsWith url (js "blob:")) eqn:E; [| done].
  apply (extends_trans _ _ _ H).
  exists [(clock h', RevokeObjectURL url)]. split; [done | by constructor].
Qed.

Lemma extends_createObjectURL (f : File) (h h' : Host) :
  extends h h' → extends h (snd (createObjectURL f h')).
Proof.
  intros H. apply (extends_trans _ _ _ H).
  eexists [_]. split; [reflexivity | by constructor].
Qed.

Lemma extends_call_writeDraft (d : ProfileSettingsValues) (h h' : Host) :
  extends h h' → extends h (call_writeDraft d h').
Proof.
  intros H. apply (extends_trans _ _ _ H).
  eexists [_]. split; [reflexivity | by constructor].
Qed.

Create HintDb log discriminated.
#[local] Hint Resolve extends_refl extends_log extends_set_clock
  extends_revoke_if_blob extends_createObjectURL extends_call_writeDraft : log.
#[local] Hint Extern 1 (marked _) => exact I : log.

Lemma extends_commit (old : ProfileSettingsValues) (m : Modal) (h h' : Host) :
  extends h h' → extends h (snd (commit old m h')).
Proof. intros H. unfold commit. cbn [snd]. case_decide; auto with log. Qed.

Lemma extends_handleUploadChange (file : option File) (m : Modal) (h : Host) :
  extends h (snd (handleUploadChange file m h)).
Proof.
  unfold handleUploadChange. destruct file as [f|]; cbn [snd]; auto with log.
  apply (extends_createObjectURL f). auto with log.
Qed.

Lemma extends_handleSave (m : Modal) (h : Host) : extends h (snd (handleSave m h)).
Proof.
  destruct (snd (validate (values m))) eqn:E.
  - rewrite handleSave_accept by done. cbn [snd]. unfold saved_toast.
    auto 7 with log.
  - rewrite handleSave_reject by done. auto with log.
Qed.

Lemma extends_onKey (key : jsstring) (h : Host) : extends h (onKey key h).
Proof. unfold onKey. case_bool_decide; auto with log. Qed.

Lemma extends_elapse (dt : nat) (m : Modal) (h : Host) :
  extends h (snd (elapse dt m h)).
Proof.
  unfold elapse. destruct (timer m) as [[deadline snapshot]|];
    [destruct (deadline <=? clock h + dt) |]; cbn [snd]; auto with log.
Qed.

#[local] Hint Resolve extends_commit extends_handleUploadChange extends_handleSave
  extends_onKey extends_elapse : log.

Lemma extends_step (s : System) (ev : Event) : extends (host s) (host (step s ev)).
Proof.
  unfold step. destruct (modal s) as [m|].
  - destruct ev; unfold render_after, unmount; cbn [host mounted]; auto with log.
    + destruct (handleUploadChange file m (host s)) as [m1 h1] eqn:E.
      cbn [host mounted]. apply extends_commit.
      change h1 with (snd (m1, h1)). rewrite <- E. auto with log.
    + unfold handleBackdropMouseDown. destruct inside; cbn [negb]; auto with log.
  - destruct ev; cbn [host]; auto with log.
Qed.

Lemma extends_run (s : System) (evs : list Event) : extends (host s) (host (run s evs)).
Proof.
  revert s. induction evs as [|ev evs IH]; intros s; [apply extends_refl |].
  eapply extends_trans; [apply extends_step | apply IH].
Qed.

Lemma calls_since_extends (h h' : Host) :
  extends h h' → calls h' = calls h ++ calls_since h h' ∧ Forall marked (calls_since h h').
Proof.
  intros (l & E & F). by rewrite (calls_since_app h h' l E).
Qed.

Lemma calls_since_trans (h1 h2 h3 : Host) :
  extends h1 h2 → extends h2 h3 →
  calls_since h1 h3 = calls_since h1 h2 ++ calls_since h2 h3.
Proof.
  intros (l1 & E1 & _) (l2 & E2 & _).
  rewrite (calls_since_app h1 h2 l1 E1), (calls_since_app h2 h3 l2 E2).
  apply calls_since_app. by rewrite E2, E1, app_assoc.
Qed.

Lemma calls_since_self (h : Host) : calls_since h h = [].
Proof. unfold calls_since. by rewrite drop_all. Qed.

Lemma close_count_app (l1 l2 : list (nat * Call)) :
  close_count (l1 ++ l2) = close_count l1 + close_count l2.
Proof. unfold close_count. by rewrite filter_app, length_app. Qed.

Lemma run_cons (s : System) (ev : Event) (evs : list Event) :
  run s (ev :: evs) = run (step s ev) evs.
Proof. reflexivity. Qed.

(** *** Dismissal *)

Lemma step_dismissal (s : System) (m : Modal) (ev : Event) :
  modal s = Some m → dismissal ev →
  modal (step s ev) = Some m ∧
  close_count (calls_since (host s) (host (step s ev))) = 1.
Proof.
  intros Hm [-> | ->]; unfold step; rewrite Hm; cbn [modal host].
  - split; [done |]. unfold onKey. rewrite bool_decide_eq_true_2 by done.
    rewrite (calls_since_app _ _ [(clock (host s), PreventDefault);
                                  (clock (host s), OnClose)]); [done |].
    cbn. by rewrite <- app_assoc.
  - split; [done |].
    by rewrite (calls_since_app _ _ [(clock (host s), OnClose)]).
Qed.

Lemma step_dismissal_unmounted (s : System) (ev : Event) :
  modal s = None → dismissal ev → step s ev = s.
Proof. intros Hm [-> | ->]; unfold step; by rewrite Hm. Qed.

(** C8 (as amended).  On a mounted modal every dismissal signal calls the
    close callback once: n signals call it n times, the component itself
    ignores none of them.  Signals are ignored only when the modal is no
    longer mounted. *)
Theorem dismissals_close_each_time (s : System) (evs : list Event) :
  Forall dismissal evs →
  (is_Some (modal s) →
   close_count (calls_since (host s) (host (run s evs))) = length evs) ∧
  (modal s = None → run s evs = s).
Proof.
  intros Hevs. revert s. induction Hevs as [|ev evs Hev _ IH]; intros s.
  - split; intros _; [| done]. cbn. by rewrite calls_since_self.
  - rewrite run_cons. split.
    + intros [m Hm]. destruct (step_dismissal s m ev Hm Hev) as [Hm' Hc].
      rewrite (calls_since_trans (host s) (host (step s ev)))
        by (apply extends_step || apply extends_run).
      rewrite close_count_app, Hc.
      destruct (IH (step s ev)) as [IH1 _].
      rewrite IH1 by (rewrite Hm'; eauto). done.
    + intros Hm. rewrite (step_dismissal_unmounted s ev Hm Hev).
      by apply IH.
Qed.

(** *** Object URLs *)

Lemma not_revoked_of_marked (a : jsstring) (l : list (nat * Call)) :
  Forall marked l → startsWith a (js "blob:") = false → a ∉ revocations l.
Proof.
  intros Hl Ha. unfold revocations. rewrite list_elem_of_omap.
  intros ([t c] & Hin & Hrev).
  rewrite Forall_forall in Hl. specialize (Hl _ Hin).
  unfold revoked, marked in *. cbn [snd] in *.
  destruct c; try done. congruence.
Qed.

Lemma mount_inv (iv : option PartialValues) (h : Host) (s : System) :
  mount iv h = Some s →
  ∃ v, typed (initial_state iv (localStorage h)) = Some v ∧
       s = {| modal := Some {| values := v; errors := no_errors;
                               timer := Some (clock h + DEBOUNCE, v) |};
              host := h |}.
Proof.
  unfold mount. destruct (typed _) as [v|]; [| done].
  intros [= <-]. eauto.
Qed.

Lemma typed_avatar (i : InitialState) (v : ProfileSettingsValues) (a : jsstring) :
  typed i = Some v → init_avatarPreviewUrl i = JStr a → avatarUrl v = Some a.
Proof.
  unfold typed. intros H Ha. rewrite Ha in H. cbn in H.
  destruct (as_string (init_name i)); [| done]. cbn in H.
  destruct (as_string (init_bio i)); [| done]. cbn in H.
  destruct (as_string (init_twitterLink i)); [| done]. cbn in H.
  destruct (as_boolean (init_streamerMode i)); [| done]. cbn in H.
  by injection H as <-.
Qed.

(** C7 (as amended).  Ownership is decided by the "blob:" marker alone.  An
    initial or restored avatar value that does not start with "blob:" is never
    revoked, whatever happens afterwards; one that does start with it is
    revoked at teardown and on replacement. *)
Theorem initial_avatar_revoked_iff_marked
        (iv : option PartialValues) (h : Host) (s : System) (a : jsstring) :
  mount iv h = Some s →
  init_avatarPreviewUrl (initial_state iv (localStorage h)) = JStr a →
  (startsWith a (js "blob:") = false →
   ∀ evs, a ∉ revocations (calls_since h (host (run s evs)))) ∧
  (startsWith a (js "blob:") = true →
   revocations (calls_since h (host (run s [Unmount]))) = [a] ∧
   ∀ file, a ∈ revocations (calls_since h (host (run s [UploadChange (Some file)])))).
Proof.
  intros Hmount Ha. destruct (mount_inv _ _ _ Hmount) as (v & Hv & ->).
  pose proof (typed_avatar _ _ _ Hv Ha) as Hav.
  split.
  - intros Hun evs. apply not_revoked_of_marked; [| done].
    set (s := Build_System _ _).
    by destruct (calls_since_extends _ _ (extends_run s evs)) as [_ ?].
  - intros Hm. split.
    + unfold run, step, unmount, revoke_if_blob. cbn [foldl modal host values].
      rewrite Hav, Hm. erewrite calls_since_app; [| reflexivity]. reflexivity.
    + intros file. unfold run, step, handleUploadChange, revoke_if_blob.
      cbn [foldl modal host values]. rewrite Hav, Hm.
      cbn [createObjectURL]. unfold commit, mounted.
      cbn [fst snd host values setAvatarPreviewUrl with_values avatarUrl].
      rewrite Hav. unfold revoke_if_blob. rewrite Hm.
      case_decide; (erewrite calls_since_app; [| cbn; rewrite <- ?app_assoc; reflexivity]);
        cbn; rewrite !elem_of_cons; auto.
Qed.

Lemma revoke_if_blob_spec (a : option jsstring) (h : Host) :
  revoke_if_blob a h
  = {| clock := clock h; localStorage := localStorage h; blobs_made := blobs_made h;
       blobs_live := blobs_live h ∖ revoke_set a;
       calls := calls h ++ revoke_calls (clock h) a |}.
Proof.
  unfold revoke_if_blob, revoke_calls, revoke_set.
  destruct a as [url|]; [destruct (startsWith url (js "blob:")) |];
    try reflexivity; destruct h; cbn; f_equal;
    by rewrite ?app_nil_r, ?difference_empty_L.
Qed.

Lemma live_after_two_uploads (live : gset jsstring) (url1 url2 : jsstring) :
  url1 ≠ url2 → live = ∅ →
  ({[url2]} ∪ (({[url1]} ∪ live ∖ ∅) ∖ ∅) ∖ {[url1]}) ∖ {[url1]} = {[url2]}.
Proof. intros Hne Hl. clear -Hne Hl. set_solver. Qed.

Lemma live_after_teardown (live : gset jsstring) (url2 : jsstring) :
  live = {[url2]} → live ∖ {[url2]} = ∅.
Proof. intros Hl. clear -Hl. set_solver. Qed.

(** One replacement.  The previous handle is revoked by the handler, and
    once more by the effect cleanup of the render that follows. *)
Lemma step_upload (m : Modal) (h : Host) (file : File) :
  let url := js "blob:" ++ blob_id (blobs_made h) in
  let old := avatarUrl (values m) in
  old ≠ Some url →
  ∃ m' h',
    step {| modal := Some m; host := h |} (UploadChange (Some file))
    = {| modal := Some m'; host := h' |} ∧
    avatarUrl (values m') = Some url ∧
    timer m' = Some (clock h + DEBOUNCE, values m') ∧
    blobs_made h' = S (blobs_made h) ∧
    clock h' = clock h ∧
    blobs_live h' = ({[url]} ∪ (blobs_live h ∖ revoke_set old)) ∖ revoke_set old ∧
    calls h' = calls h ++ revoke_calls (clock h) old
                       ++ [(clock h, CreateObjectURL file url)]
                       ++ revoke_calls (clock h) old.
Proof.
  intros url old Hne.
  unfold step, handleUploadChange. cbn [modal host].
  rewrite revoke_if_blob_spec. fold old. cbn [createObjectURL blobs_made].
  fold url. unfold commit, mounted.
  cbn [setAvatarPreviewUrl with_values values avatarUrl fst snd].
  fold old. rewrite (decide_False (P := old = Some url)) by done.
  rewrite revoke_if_blob_spec. cbn [log clock blobs_live calls localStorage blobs_made].
  rewrite decide_False.
  2:{ intros E. apply (f_equal avatarUrl) in E. by cbn in E. }
  eexists _, _. split; [reflexivity |].
  cbn. rewrite <- ?app_assoc. done.
Qed.

Lemma startsWith_blob (x : jsstring) : startsWith (js "blob:" ++ x) (js "blob:") = true.
Proof. apply startsWith_app. Qed.

(** C6.  Two replacements in a row, starting without an avatar: the second
    one revokes the first object URL twice (in the handler and again in the
    effect cleanup).  One object URL is live afterwards, teardown revokes it
    once, and a second teardown does nothing. *)
Theorem upload_twice_revokes_first_twice (m : Modal) (h : Host) (file1 file2 : File) :
  avatarUrl (values m) = None →
  blob_id (blobs_made h) ≠ blob_id (S (blobs_made h)) →
  blobs_live h = ∅ →
  let url1 := js "blob:" ++ blob_id (blobs_made h) in
  let url2 := js "blob:" ++ blob_id (S (blobs_made h)) in
  let s2 := run {| modal := Some m; host := h |}
                [UploadChange (Some file1); UploadChange (Some file2)] in
  avatarUrl <$> (values <$> modal s2) = Some (Some url2) ∧
  blobs_live (host s2) = {[url2]} ∧
  revocations (calls_since h (host s2)) = [url1; url1] ∧
  revocations (calls_since (host s2) (host (run s2 [Unmount]))) = [url2] ∧
  blobs_live (host (run s2 [Unmount])) = ∅ ∧
  run s2 [Unmount; Unmount] = run s2 [Unmount].
Proof.
  intros Hav Hne Hlive url1 url2 s2.
  assert (Hu : url1 ≠ url2) by (intros E; by apply app_inv_head in E).
  assert (Hs1 : startsWith url1 (js "blob:") = true) by apply startsWith_blob.
  assert (Hs2 : startsWith url2 (js "blob:") = true) by apply startsWith_blob.
  destruct (step_upload m h file1) as (m1 & h1 & E1 & Hav1 & _ & Hn1 & Hc1 & Hl1 & Hcalls1).
  { by rewrite Hav. }
  destruct (step_upload m1 h1 file2) as (m2 & h2 & E2 & Hav2 & _ & Hn2 & Hc2 & Hl2 & Hcalls2).
  { rewrite Hav1, Hn1. fold url1 url2. congruence. }
  rewrite Hav in Hl1, Hcalls1. rewrite Hav1 in Hl2, Hcalls2.
  rewrite Hn1 in Hav2, Hl2, Hcalls2.
  fold url1 in Hl1, Hcalls1, Hl2, Hcalls2. fold url2 in Hav2, Hl2, Hcalls2.
  clearbody url1 url2.
  unfold revoke_set, revoke_calls in Hl1, Hcalls1, Hl2, Hcalls2.
  rewrite Hs1 in Hl2, Hcalls2.
  assert (Es2 : s2 = {| modal := Some m2; host := h2 |}).
  { subst s2. unfold run. cbn [foldl]. by rewrite E1, E2. }
  rewrite Es2. cbn [modal host fmap option_fmap option_map].
  split; [by rewrite Hav2 |].
  assert (Hlive2 : blobs_live h2 = {[url2]}).
  { rewrite Hl2, Hl1. by apply live_after_two_uploads. }
  split; [done |].
  split.
  { rewrite (calls_since_app h h2
      ([(clock h, CreateObjectURL file1 url1)]
       ++ [(clock h1, RevokeObjectURL url1)]
       ++ [(clock h1, CreateObjectURL file2 url2)]
       ++ [(clock h1, RevokeObjectURL url1)])); [reflexivity |].
    rewrite Hcalls2, Hcalls1. cbn. by rewrite <- !app_assoc. }
  unfold run, step, unmount. cbn [foldl modal host].
  rewrite revoke_if_blob_spec, Hav2. unfold revoke_set, revoke_calls.
  rewrite Hs2. cbn [host calls blobs_live].
  split; [by rewrite (calls_since_app _ _ [(clock h2, RevokeObjectURL url2)]) by done |].
  split; [by apply live_after_teardown | done].
Qed.

(** *** Debounced persistence *)

Lemma draft_writes_app (l1 l2 : list (nat * Call)) :
  draft_writes (l1 ++ l2) = draft_writes l1 ++ draft_writes l2.
Proof. apply omap_app. Qed.

Lemma draft_writes_revoke_calls (t : nat) (a : option jsstring) :
  draft_writes (revoke_calls t a) = [].
Proof.
  unfold revoke_calls. destruct a as [u|]; [destruct (startsWith u _) |]; done.
Qed.

Lemma commit_same_avatar (old : ProfileSettingsValues) (m : Modal) (h : Host) :
  avatarUrl old = avatarUrl (values m) → old ≠ values m →
  commit old m h
  = ({| values := values m; errors := errors m;
        timer := Some (clock h + DEBOUNCE, values m) |}, h).
Proof.
  intros Ha Hv. unfold commit.
  rewrite (decide_True (P := avatarUrl old = avatarUrl (values m))) by done.
  by rewrite (decide_False (P := old = values m)) by done.
Qed.

Lemma commit_values (old : ProfileSettingsValues) (m : Modal) (h : Host) :
  values (fst (commit old m h)) = values m.
Proof. unfold commit. cbn [fst]. by case_decide. Qed.

(** After a setter that leaves the avatar alone and changes a value, the
    host is untouched and a fresh timeout is pending. *)
Lemma render_after_mutation (f : Modal → Modal) (m : Modal) (h : Host) :
  avatarUrl (values (f m)) = avatarUrl (values m) →
  current (render_after f m h) ≠ Some (values m) →
  ∃ m', render_after f m h = {| modal := Some m'; host := h |} ∧
        timer m' = Some (clock h + DEBOUNCE, values m').
Proof.
  intros Ha Hmut. unfold render_after in *.
  assert (Hne : values m ≠ values (f m)).
  { intros E. apply Hmut. unfold current, mounted. cbn [modal fmap option_fmap option_map].
    by rewrite commit_values, <- E. }
  rewrite commit_same_avatar by done. eexists. split; reflexivity.
Qed.

(** A mutation restarts the delay and writes nothing. *)
Lemma mutation_step (s : System) (m : Modal) (e : Edit) :
  modal s = Some m → mutates s e →
  ∃ m', modal (step s (edit_event e)) = Some m' ∧
        timer m' = Some (clock (host s) + DEBOUNCE, values m') ∧
        clock (host (step s (edit_event e))) = clock (host s) ∧
        draft_writes (calls_since (host s) (host (step s (edit_event e)))) = [].
Proof.
  intros Hm Hmut. destruct s as [mo h]. cbn [modal] in Hm. subst mo.
  unfold mutates, current in Hmut. cbn [host] in *.
  destruct e as [v | v | v | | file]; cbn [edit_event] in *.
  1-4: unfold step in *; cbn [modal host fmap option_fmap option_map] in *;
       match type of Hmut with
       | context [render_after ?f ?m0 ?h0] =>
           destruct (render_after_mutation f m0 h0) as (m' & E & Ht);
             [reflexivity | exact Hmut |]
       end;
       rewrite E; exists m'; cbn [modal host];
       repeat split; try done; by rewrite calls_since_self.
  destruct (step_upload m h file) as (m' & h' & E & Ha & Ht & _ & Hc & _ & Hcalls).
  { intros Hold. apply Hmut. unfold step, handleUploadChange.
    cbn [modal host createObjectURL]. unfold mounted.
    cbn [modal fmap option_fmap option_map fst]. rewrite commit_values.
    cbn [setAvatarPreviewUrl with_values values]. f_equal.
    destruct (values m); cbn in *. by rewrite Hold. }
  rewrite E. exists m'. cbn [modal host]. repeat split; try done.
  rewrite (calls_since_app _ _ _ Hcalls), !draft_writes_app.
  by rewrite draft_writes_revoke_calls.
Qed.

Lemma elapse_before_deadline (s : System) (m : Modal) (d : nat) :
  modal s = Some m →
  timer m = Some (clock (host s) + DEBOUNCE, values m) →
  d < DEBOUNCE →
  step s (Elapse d)
  = {| modal := Some m; host := set_clock (clock (host s) + d) (host s) |}.
Proof.
  intros Hm Ht Hd. unfold step, elapse. rewrite Hm, Ht.
  destruct (Nat.leb_spec (clock (host s) + DEBOUNCE) (clock (host s) + d)); [lia | done].
Qed.

Lemma elapse_past_deadline (s : System) (m : Modal) (d : nat) :
  modal s = Some m →
  timer m = Some (clock (host s) + DEBOUNCE, values m) →
  DEBOUNCE ≤ d →
  calls (host (step s (Elapse d)))
  = calls (host s) ++ [(clock (host s) + DEBOUNCE, WriteDraft (values m))].
Proof.
  intros Hm Ht Hd. unfold step, elapse. rewrite Hm, Ht.
  destruct (Nat.leb_spec (clock (host s) + DEBOUNCE) (clock (host s) + d)); [| lia].
  cbn. by rewrite Nat.max_r by lia.
Qed.

Lemma burst_pending (s0 s : System) (rest : list (nat * Edit)) :
  pending s0 s → burst s rest → pending s0 (run s (burst_events rest)).
Proof.
  revert s. induction rest as [|[gap e] rest IH]; intros s Hp Hb; [done |].
  destruct Hb as (Hgap & Hmut & Hb).
  change (run s (burst_events ((gap, e) :: rest)))
    with (run (step (step s (Elapse gap)) (edit_event e)) (burst_events rest)).
  apply IH; [| done]. clear IH Hb.
  destruct Hp as (m & Hm & Ht & Hext & Hw).
  rewrite (elapse_before_deadline s m gap Hm Ht Hgap) in *.
  set (s1 := Build_System _ _) in *.
  destruct (mutation_step s1 m e eq_refl Hmut) as (m' & Hm' & Ht' & Hc' & Hw').
  exists m'. split; [done |]. split; [by rewrite Hc' |].
  assert (Hext1 : extends (host s0) (host s1)) by by apply extends_set_clock.
  split; [eapply extends_trans; [exact Hext1 | apply extends_step] |].
  rewrite (calls_since_trans (host s0) (host s1)) by (done || apply extends_step).
  rewrite draft_writes_app, Hw'. by rewrite app_nil_r.
Qed.

(** C5.  A burst of mutations, each less than the debounce delay after the
    previous one, writes the draft once: nothing is written while the burst
    lasts or before the delay has passed since its last mutation, and when it
    has passed the one write is made, at the last mutation's time plus the
    delay, with the values as the last mutation left them. *)
Theorem debounce_coalesces (s : System) (m : Modal) (e1 : Edit) (rest : list (nat * Edit)) :
  modal s = Some m →
  mutates s e1 →
  burst (step s (edit_event e1)) rest →
  let s' := run (step s (edit_event e1)) (burst_events rest) in
  ∃ snapshot,
    current s' = Some snapshot ∧
    (∀ d, d < DEBOUNCE →
          draft_writes (calls_since (host s) (host (step s' (Elapse d)))) = []) ∧
    (∀ d, DEBOUNCE ≤ d →
          draft_writes (calls_since (host s) (host (step s' (Elapse d))))
          = [(clock (host s') + DEBOUNCE, snapshot)]).
Proof.
  intros Hm Hmut Hb s'.
  assert (Hp : pending s s').
  { apply burst_pending; [| done].
    destruct (mutation_step s m e1 Hm Hmut) as (m' & Hm' & Ht' & Hc' & Hw').
    exists m'. rewrite Hc'. repeat split; try done. apply extends_step. }
  destruct Hp as (m' & Hm' & Ht' & Hext & Hw).
  exists (values m'). split; [unfold current; by rewrite Hm' |].
  split; intros d Hd.
  - rewrite (elapse_before_deadline s' m' d Hm' Ht' Hd). cbn [host].
    destruct Hext as (l & El & _).
    rewrite (calls_since_app _ _ l) in Hw by done.
    by rewrite (calls_since_app _ _ l) by done.
  - pose proof (elapse_past_deadline s' m' d Hm' Ht' Hd) as Hcalls.
    destruct Hext as (l & El & _).
    rewrite (calls_since_app _ _ l) in Hw by done.
    rewrite (calls_since_app _ _ (l ++ [(clock (host s') + DEBOUNCE, WriteDraft (values m'))])).
    + rewrite draft_writes_app, Hw. reflexivity.
    + by rewrite Hcalls, El, app_assoc.
Qed.

(** ** Further properties of the component *)

(** *** Draft store *)

Lemma object_test (parsed : JsValue) :
  negb (ToBoolean parsed) || negb (bool_decide (typeof parsed = js "object")) = false
  ↔ is_object parsed.
Proof.
  destruct parsed as [| | b | [m e|neg|] | s | l | props]; cbn [ToBoolean typeof is_object];
    try (split; [| done]); try reflexivity;
    try (by vm_compute); try (by destruct b); try (by intros _).
  - destruct (bool_decide (m = 0%Z)); by vm_compute.
  - destruct s; by vm_compute.
Qed.

(** X1.  [readDraft] yields a value exactly when storage can be read, holds a
    non-empty text under the draft key, the text parses, and the result is
    an object or an array; in every other case it yields [null]. *)
Theorem readDraft_Some (ls : Storage) (v : JsValue) :
  readDraft ls = Some v ↔
  denied ls = false ∧
  ∃ raw, items ls !! DRAFT_KEY = Some raw ∧ raw ≠ [] ∧
         JSON_parse raw = Return v ∧ is_object v.
Proof.
  unfold readDraft, getItem. destruct (denied ls).
  { split; [done | by intros [? _]]. }
  destruct (items ls !! DRAFT_KEY) as [raw|].
  2:{ split; [done | by intros (_ & raw & ? & _)]. }
  destruct raw as [|c raw]; cbn [str_truthy negb].
  { split; [done | by intros (_ & raw & [= <-] & ? & _)]. }
  destruct (JSON_parse (c :: raw)) as [parsed|] eqn:E.
  2:{ split; [done |]. intros (_ & raw' & [= <-] & _ & Hp & _). congruence. }
  pose proof (object_test parsed) as Hobj.
  destruct (negb (ToBoolean parsed) || negb (bool_decide (typeof parsed = js "object"))).
  - split; [done |]. intros (_ & raw' & [= <-] & _ & Hp & Hv).
    rewrite E in Hp. injection Hp as ->. by apply Hobj in Hv.
  - split.
    + intros [= <-]. split; [done |]. exists (c :: raw).
      repeat split; try done. by apply Hobj.
    + intros (_ & raw' & [= <-] & _ & Hp & _). rewrite E in Hp. by injection Hp as ->.
Qed.

(** X2.  [writeDraft] changes nothing but the text under the draft key, and
    changes nothing at all when storage refuses the write. *)
Theorem writeDraft_frame (draft : ProfileSettingsValues) (ls : Storage) :
  denied (writeDraft draft ls) = denied ls ∧
  full (writeDraft draft ls) = full ls ∧
  (∀ key, key ≠ DRAFT_KEY → items (writeDraft draft ls) !! key = items ls !! key) ∧
  (denied ls || full ls = true → writeDraft draft ls = ls).
Proof.
  unfold writeDraft, setItem. destruct (denied ls || full ls) eqn:E; cbn.
  - repeat split; done.
  - repeat split; try done. intros key Hk. by rewrite lookup_insert_ne.
Qed.


(** *** Initial values, continued *)

Lemma initial_fields (iv : option PartialValues) (draft : option JsValue) :
  let d := own_props (default (JObj ∅) draft) in
  let dflt := defaults iv in
  useState_initial (initial iv draft)
  = {| init_avatarPreviewUrl :=
         default (of_opt_string (avatarUrl dflt)) (d !! js "avatarUrl");
       init_name := default (JStr (name dflt)) (d !! js "name");
       init_bio :=
         match default (JStr (bio dflt)) (d !! js "bio") with
         | JStr s => if 100 <? length s then JStr (take 100 s) else JStr s
         | v => v
         end;
       init_twitterLink := default (JStr (twitterLink dflt)) (d !! js "twitterLink");
       init_streamerMode :=
         default (JBool (streamerMode dflt)) (d !! js "streamerMode") |}.
Proof.
  intros d dflt. unfold useState_initial.
  rewrite get_initial_bio.
  rewrite !get_initial_other by (by vm_compute).
  rewrite (get_merged iv draft (js "avatarUrl") (of_opt_string (avatarUrl dflt))) by done.
  rewrite (get_merged iv draft (js "name") (JStr (name dflt))) by done.
  rewrite (get_merged iv draft (js "twitterLink") (JStr (twitterLink dflt))) by done.
  rewrite (get_merged iv draft (js "streamerMode") (JBool (streamerMode dflt))) by done.
  by rewrite (get_merged iv draft (js "bio") (JStr (bio dflt))) by done.
Qed.

Lemma cut_if_long (s : jsstring) :
  (if 100 <? length s then JStr (take 100 s) else JStr s) = JStr (take 100 s).
Proof.
  destruct (Nat.ltb_spec 100 (length s)); [done |]. by rewrite take_ge by lia.
Qed.

Lemma pretty_N_char_digit (k : N) : is_digit (N_of_ascii (pretty_N_char k)).
Proof. unfold is_digit, pretty_N_char. repeat case_match; split; by vm_compute. Qed.

Lemma pretty_N_go_head (x : N) (s : string) :
  (0 < x)%N → ∃ d r, pretty_N_go x s = String d r ∧ is_digit (N_of_ascii d).
Proof.
  revert s. induction (N.lt_wf_0 x) as [x _ IH]; intros s Hx.
  rewrite pretty_N_go_step by done.
  destruct (decide (x `div` 10 = 0)%N) as [E | E].
  - rewrite E, pretty_N_go_0. eexists _, _. split; [done |]. apply pretty_N_char_digit.
  - apply IH; [apply N.div_lt; lia | by apply N.neq_0_lt_0].
Qed.

(** A decimal index starts with a digit. *)
Lemma pretty_nat_head (i : nat) : ∃ c r, js (pretty i) = c :: r ∧ is_digit c.
Proof.
  unfold pretty, pretty_nat, pretty, pretty_N. case_decide.
  - exists 48%N, []. split; [done | unfold is_digit; lia].
  - destruct (pretty_N_go_head (N.of_nat i) "") as (d & r & -> & Hd); [lia |].
    by exists (N_of_ascii d), (js r).
Qed.

(** The own properties of an array are its indices: none is a field name. *)
Lemma array_has_no_field (l : list JsValue) (key : jsstring) :
  key ∈ field_names → own_props (JArr l) !! key = None.
Proof.
  intros Hkey. cbn [own_props]. apply not_elem_of_list_to_map_1.
  rewrite list_elem_of_fmap. intros ([k x] & -> & Hin).
  apply elem_of_lookup_imap in Hin as (i & y & [= -> ->] & _).
  destruct (pretty_nat_head i) as (c & r & E & Hc). cbn [fst] in Hkey.
  rewrite E in Hkey. unfold field_names, is_digit in *.
  rewrite !elem_of_cons, elem_of_nil in Hkey.
  destruct Hkey as [H | [H | [H | [H | [H | []]]]]];
    apply (f_equal head) in H; vm_compute in H; injection H as ->; lia.
Qed.

Lemma typed_defaults (iv : option PartialValues) (draft : option JsValue) :
  (∀ key, key ∈ field_names → own_props (default (JObj ∅) draft) !! key = None) →
  typed (useState_initial (initial iv draft)) = Some (cut_bio (defaults iv)).
Proof.
  intros Hnone. rewrite initial_fields. cbv zeta.
  rewrite !Hnone by (unfold field_names; rewrite !elem_of_cons; auto 6).
  cbn [default from_option id]. rewrite cut_if_long.
  unfold typed, cut_bio, slice0, BIO_MAX.
  cbn [init_avatarPreviewUrl init_name init_bio init_twitterLink init_streamerMode].
  by destruct (avatarUrl (defaults iv)).
Qed.

(** X4.  Without a draft, or with a stored array (which [readDraft] lets
    through as an object), mounting succeeds on the host's defaults, with
    the bio cut to 100 code units. *)
Theorem mount_without_object_draft (iv : option PartialValues) (h : Host) :
  readDraft (localStorage h) = None ∨ (∃ l, readDraft (localStorage h) = Some (JArr l)) →
  mount iv h
  = Some {| modal := Some {| values := cut_bio (defaults iv); errors := no_errors;
                             timer := Some (clock h + DEBOUNCE, cut_bio (defaults iv)) |};
            host := h |}.
Proof.
  intros Hd. unfold mount, initial_state.
  rewrite typed_defaults; [done |].
  intros key Hkey. destruct Hd as [-> | [l ->]]; cbn [default from_option id].
  - apply lookup_empty.
  - by apply array_has_no_field.
Qed.

(** X5.  A draft that was written and reads back as written overrides every
    value the host supplies: the next mount starts from the draft, with its
    bio cut to 100 code units. *)
Theorem draft_round_trip (draft : ProfileSettingsValues) (ls : Storage)
        (iv : option PartialValues) :
  denied ls = false → full ls = false →
  JSON_stringify (to_object draft) ≠ [] →
  JSON_parse (JSON_stringify (to_object draft)) = Return (to_object draft) →
  readDraft (writeDraft draft ls) = Some (to_object draft) ∧
  typed (initial_state iv (writeDraft draft ls)) = Some (cut_bio draft).
Proof.
  intros Hd Hf Hne Hparse.
  assert (Hread : readDraft (writeDraft draft ls) = Some (to_object draft)).
  { unfold readDraft, getItem, writeDraft, setItem. rewrite Hd, Hf.
    cbn [orb denied items]. rewrite lookup_insert_eq.
    destruct (JSON_stringify (to_object draft)) as [|c raw] eqn:E; [done |].
    cbn [str_truthy negb]. by rewrite Hparse. }
  split; [done |].
  unfold initial_state. rewrite Hread, initial_fields. cbv zeta.
  change (own_props (default (JObj ∅) (Some (to_object draft))))
    with (own_props (to_object draft)).
  replace (own_props (to_object draft) !! js "avatarUrl")
    with (Some (of_opt_string (avatarUrl draft))) by done.
  replace (own_props (to_object draft) !! js "name") with (Some (JStr (name draft))) by done.
  replace (own_props (to_object draft) !! js "bio") with (Some (JStr (bio draft))) by done.
  replace (own_props (to_object draft) !! js "twitterLink")
    with (Some (JStr (twitterLink draft))) by done.
  replace (own_props (to_object draft) !! js "streamerMode")
    with (Some (JBool (streamerMode draft))) by done.
  cbn [default from_option id]. rewrite cut_if_long.
  unfold typed, cut_bio, slice0, BIO_MAX.
  cbn [init_avatarPreviewUrl init_name init_bio init_twitterLink init_streamerMode].
  by destruct (avatarUrl draft).
Qed.

(** *** The link check, continued *)

Lemma startsWith_inv (s p : jsstring) :
  startsWith s p = true → s = p ++ drop (length p) s.
Proof.
  revert s. induction p as [|a p IH]; intros [|b s]; simpl; try done.
  intros [Hab Hs]%andb_prop. apply bool_decide_eq_true_1 in Hab as ->.
  f_equal. by apply IH.
Qed.

Lemma strip_www_eq (host target : jsstring) :
  startsWith target (js "www.") = false →
  strip_www host = target ↔ host = target ∨ host = js "www." ++ target.
Proof.
  intros Ht. unfold strip_www. destruct (startsWith host (js "www.")) eqn:E.
  - split.
    + intros <-. right. by apply startsWith_inv in E.
    + intros [-> | ->]; [congruence | reflexivity].
  - split; [by left |]. intros [-> | ->]; [done |].
    by rewrite startsWith_app in E.
Qed.

(** X6.  Of a link that the URL constructor parses, the check accepts four
    hostnames and no other: x.com, www.x.com, twitter.com, www.twitter.com.
    Any other subdomain, and a doubled "www.", is refused. *)
Theorem accepted_hostnames (value : jsstring) (url : URL) :
  trim value ≠ [] →
  new_URL value = Some url →
  isValidTwitterUrl value = true ↔
  hostname url ∈ [js "x.com"; js "www.x.com"; js "twitter.com"; js "www.twitter.com"].
Proof.
  intros Hne Hurl. rewrite isValidTwitterUrl_nonblank by done.
  unfold allowed_hosts. rewrite !elem_of_cons, elem_of_nil.
  pose proof (strip_www_eq (hostname url) (js "x.com") eq_refl) as Hx.
  pose proof (strip_www_eq (hostname url) (js "twitter.com") eq_refl) as Ht.
  change (js "www." ++ js "x.com") with (js "www.x.com") in Hx.
  change (js "www." ++ js "twitter.com") with (js "www.twitter.com") in Ht.
  split.
  - intros (u & Hu & Hin). rewrite Hurl in Hu. injection Hu as <-.
    rewrite !elem_of_cons, elem_of_nil in Hin.
    destruct Hin as [H | [H | []]]; [apply Hx in H | apply Ht in H]; destruct H; auto.
  - intros H. exists url. split; [done |]. rewrite !elem_of_cons.
    destruct H as [H | [H | [H | [H | []]]]];
      [left; apply Hx | left; apply Hx | right; left; apply Ht | right; left; apply Ht];
      auto.
Qed.

(** *** Object URLs, continued *)

Lemma live_minus_shown (live : gset jsstring) (a : option jsstring) :
  (∀ url, url ∈ live → a = Some url ∧ startsWith url (js "blob:") = true) →
  live ∖ revoke_set a = ∅.
Proof.
  intros Hinv. apply elem_of_equiv_empty_L. intros url [Hin Hnot]%elem_of_difference.
  destruct (Hinv url Hin) as [-> Hs]. apply Hnot. unfold revoke_set. rewrite Hs.
  by apply elem_of_singleton.
Qed.

Lemma commit_snd_same_avatar (old : ProfileSettingsValues) (m : Modal) (h : Host) :
  avatarUrl old = avatarUrl (values m) → snd (commit old m h) = h.
Proof. intros Ha. unfold commit. cbn [snd]. by rewrite decide_True. Qed.

Lemma handleSave_frame (m : Modal) (h : Host) :
  values (fst (handleSave m h)) = values m ∧
  timer (fst (handleSave m h)) = timer m ∧
  blobs_live (snd (handleSave m h)) = blobs_live h ∧
  clock (snd (handleSave m h)) = clock h.
Proof.
  destruct (snd (validate (values m))) eqn:E.
  - by rewrite handleSave_accept.
  - by rewrite handleSave_reject.
Qed.

Lemma elapse_frame (dt : nat) (m : Modal) (h : Host) :
  values (fst (elapse dt m h)) = values m ∧
  errors (fst (elapse dt m h)) = errors m ∧
  blobs_live (snd (elapse dt m h)) = blobs_live h.
Proof.
  unfold elapse. destruct (timer m) as [[deadline snapshot]|];
    [destruct (deadline <=? clock h + dt) |]; done.
Qed.

(** After a replacement only the new object URL can be live beyond what was
    live and not shown before. *)
Lemma upload_live (m : Modal) (h : Host) (file : File) :
  let url := js "blob:" ++ blob_id (blobs_made h) in
  ∃ m' h',
    step {| modal := Some m; host := h |} (UploadChange (Some file))
    = {| modal := Some m'; host := h' |} ∧
    avatarUrl (values m') = Some url ∧
    blobs_live h' ⊆ {[url]} ∪ blobs_live h ∖ revoke_set (avatarUrl (values m)).
Proof.
  intros url. unfold step, handleUploadChange. cbn [modal host].
  rewrite revoke_if_blob_spec. cbn [createObjectURL blobs_made]. fold url.
  unfold mounted. eexists _, _. split; [reflexivity |].
  split; [by rewrite commit_values |].
  unfold commit. cbn [snd fst]. case_decide as Ha; [done |].
  rewrite revoke_if_blob_spec. cbn [blobs_live log].
  generalize (revoke_set (avatarUrl (values m))). generalize (blobs_live h).
  clear. set_solver.
Qed.

Lemma tidy_step (s : System) (ev : Event) : tidy s → tidy (step s ev).
Proof.
  destruct s as [[m|] h]; unfold tidy; cbn [modal host]; intros Hinv.
  2:{ destruct ev; try done. }
  destruct ev as [v | v | v | | [file|] | | | key | inside | dt |].
  1-4: unfold step, render_after, mounted; cbn [modal host];
       rewrite commit_values, commit_snd_same_avatar by done; exact Hinv.
  - destruct (upload_live m h file) as (m' & h' & -> & Ha & Hsub). cbn [modal host].
    intros url Hin. apply Hsub in Hin.
    rewrite (live_minus_shown _ _ Hinv) in Hin.
    apply elem_of_union in Hin as [->%elem_of_singleton | Hin]; [| by apply elem_of_empty in Hin].
    split; [done | apply startsWith_blob].
  - unfold step, handleUploadChange, mounted. cbn [modal host].
    by rewrite commit_values, commit_snd_same_avatar.
  - unfold step, mounted. cbn [modal host].
    destruct (handleSave_frame m h) as (-> & _ & -> & _). exact Hinv.
  - exact Hinv.
  - unfold step, onKey. cbn [modal host]. by case_bool_decide.
  - unfold step, handleBackdropMouseDown. cbn [modal host]. by destruct inside.
  - unfold step, mounted. cbn [modal host].
    destruct (elapse_frame dt m h) as (-> & _ & ->). exact Hinv.
  - unfold step, unmount. cbn [modal host]. rewrite revoke_if_blob_spec.
    cbn [blobs_live]. by apply live_minus_shown.
Qed.

Lemma tidy_run (s : System) (evs : list Event) : tidy s → tidy (run s evs).
Proof.
  revert s. induction evs as [|ev evs IH]; intros s Hs; [done |].
  rewrite run_cons. by apply IH, tidy_step.
Qed.

(** X7.  From a mount on a page without live object URLs, whatever happens, at
    most one object URL is live, it is the avatar on display, and none is
    live once the modal is unmounted: replacing and closing leak nothing. *)
Theorem no_object_url_leak (iv : option PartialValues) (h : Host) (s : System)
        (evs : list Event) :
  blobs_live h = ∅ →
  mount iv h = Some s →
  size (blobs_live (host (run s evs))) ≤ 1 ∧
  (∀ url, url ∈ blobs_live (host (run s evs)) →
          avatarUrl <$> (values <$> modal (run s evs)) = Some (Some url)) ∧
  (modal (run s evs) = None → blobs_live (host (run s evs)) = ∅).
Proof.
  intros Hlive Hmount. destruct (mount_inv _ _ _ Hmount) as (v & _ & ->).
  match goal with |- context [run ?s0 evs] => set (s := s0) end.
  assert (Ht : tidy (run s evs)).
  { apply tidy_run. subst s. unfold tidy. cbn [modal host]. intros url.
    rewrite Hlive. by intros ?%elem_of_empty. }
  unfold tidy in Ht. destruct (modal (run s evs)) as [m|].
  - split; [| split; [| done]].
    + destruct (avatarUrl (values m)) as [a|] eqn:Ea.
      * assert (Hsub : blobs_live (host (run s evs)) ⊆ {[a]}).
        { intros url Hin. destruct (Ht url Hin) as [[= ->] _].
          by apply elem_of_singleton. }
        apply subseteq_size in Hsub. by rewrite size_singleton in Hsub.
      * assert (E : blobs_live (host (run s evs)) = ∅).
        { apply elem_of_equiv_empty_L. intros url Hin. by destruct (Ht url Hin). }
        rewrite E, size_empty. lia.
    + intros url Hin. destruct (Ht url Hin) as [Ha _]. cbn. by rewrite Ha.
  - rewrite Ht, size_empty. split; [lia |]. split; [| done].
    by intros url ?%elem_of_empty.
Qed.

(** *** Teardown *)




(** *** Save and the pending draft write *)


(** *** Errors *)

Lemma cleared_refl (e : Errors) : cleared e e.
Proof. unfold cleared. auto. Qed.

Lemma commit_errors (old : ProfileSettingsValues) (m : Modal) (h : Host) :
  errors (fst (commit old m h)) = errors m.
Proof. unfold commit. cbn [fst]. by case_decide. Qed.

(** X10.  Errors appear on save only.  Every other event leaves each field's
    error as it was or clears it: typing into a field never validates it. *)
Theorem errors_only_cleared (s : System) (m m' : Modal) (ev : Event) :
  ev ≠ Save →
  modal s = Some m →
  modal (step s ev) = Some m' →
  cleared (errors m') (errors m).
Proof.
  intros Hev Hm. unfold step. rewrite Hm.
  destruct ev as [v | v | v | | file | | | key | inside | dt |]; try done;
    unfold render_after, mounted; cbn [modal].
  - intros E. apply (inj Some) in E. rewrite <- E. rewrite commit_errors.
    unfold onChange_name, cleared. cbn [errors].
    destruct (err_truthy (err_name (errors m))); cbn; auto.
  - intros E. apply (inj Some) in E. rewrite <- E. rewrite commit_errors.
    unfold onChange_bio, cleared. cbn [errors].
    destruct (err_truthy (err_bio (errors m))); cbn; auto.
  - intros E. apply (inj Some) in E. rewrite <- E. rewrite commit_errors.
    unfold onChange_twitterLink, cleared. cbn [errors].
    destruct (err_truthy (err_twitterLink (errors m))); cbn; auto.
  - intros E. apply (inj Some) in E. rewrite <- E. rewrite commit_errors. apply cleared_refl.
  - destruct (handleUploadChange file m (host s)) as [m1 h1] eqn:E. cbn [modal].
    intros E'. apply (inj Some) in E'. rewrite <- E'. rewrite commit_errors.
    unfold handleUploadChange in E. destruct file as [f|].
    + injection E as <- _. apply cleared_refl.
    + injection E as <- _. apply cleared_refl.
  - intros E. apply (inj Some) in E. rewrite <- E. apply cleared_refl.
  - intros E. apply (inj Some) in E. rewrite <- E. apply cleared_refl.
  - intros E. apply (inj Some) in E. rewrite <- E. apply cleared_refl.
  - intros E. apply (inj Some) in E. rewrite <- E.
    destruct (elapse_frame dt m (host s)) as (_ & -> & _). apply cleared_refl.
Qed.

End Component.

Arguments ChangeName {File}.
Arguments ChangeBio {File}.
Arguments ChangeTwitterLink {File}.
Arguments ToggleStreamerMode {File}.
Arguments UploadChange {File}.
Arguments Save {File}.
Arguments CloseButton {File}.
Arguments KeyDown {File}.
Arguments BackdropMouseDown {File}.
Arguments Elapse {File}.
Arguments Unmount {File}.
Arguments SetName {File}.
Arguments SetBio {File}.
Arguments SetTwitterLink {File}.
Arguments ToggleStreamer {File}.
Arguments Upload {File}.
Arguments modal {File}.
Arguments host {File}.
Arguments clock {File}.
Arguments localStorage {File}.
Arguments blobs_live {File}.
Arguments calls {File}.
Arguments calls_since {File}.
Arguments close_count {File}.
Arguments toast_count {File}.
Arguments draft_writes {File}.
Arguments revocations {File}.
Arguments burst_events {File}.
Arguments current {File}.
Arguments dismissal {File}.

(** ** Class names *)

Lemma join_app (sep : jsstring) (a b : list jsstring) :
  join sep (a ++ b)
  = match a, b with
    | [], _ => join sep b
    | _, [] => join sep a
    | _, _ => join sep a ++ sep ++ join sep b
    end.
Proof.
  induction a as [|x [|y a] IH].
  - done.
  - destruct b; [done |]. reflexivity.
  - destruct b as [|z b].
    + by rewrite app_nil_r.
    + change (join sep ((x :: y :: a) ++ z :: b))
        with (x ++ sep ++ join sep ((y :: a) ++ z :: b)).
      rewrite IH. change (join sep (x :: y :: a)) with (x ++ sep ++ join sep (y :: a)).
      by rewrite <- !app_assoc.
Qed.

Lemma join_nonempty (sep x : jsstring) (l : list jsstring) :
  x ≠ [] → str_truthy (join sep (x :: l)) = true.
Proof. intros Hx. destruct x; [done |]. by destruct l. Qed.

Lemma kept_classes_nonempty (classes : list (option jsstring)) :
  Forall (λ s, s ≠ []) (default [] <$> filter (λ c, Boolean_class c = true) classes).
Proof.
  apply Forall_fmap, Forall_forall. intros c [Hc _]%list_elem_of_filter.
  destruct c as [[|]|]; done.
Qed.

(** X11.  [cx] of two lists put together is the two results joined by one
    space, and by none when either side contributes no class: entries that
    are false, null, undefined or empty leave no stray separator. *)
Theorem cx_app (l1 l2 : list (option jsstring)) :
  cx (l1 ++ l2)
  = if str_truthy (cx l1) && str_truthy (cx l2)
    then cx l1 ++ js " " ++ cx l2
    else cx l1 ++ cx l2.
Proof.
  unfold cx. rewrite filter_app, fmap_app, join_app.
  pose proof (kept_classes_nonempty l1) as H1.
  pose proof (kept_classes_nonempty l2) as H2.
  destruct (default [] <$> filter _ l1) as [|x a]; [done |].
  destruct (default [] <$> filter _ l2) as [|y b].
  - rewrite andb_false_r. by rewrite app_nil_r.
  - apply Forall_cons in H1 as [Hx _]. apply Forall_cons in H2 as [Hy _].
    by rewrite !join_nonempty.
Qed.

(** ** Scroll lock *)

Lemma lock_n_S (k : nat) (overflow : jsstring) :
  lock_n (S k) overflow = (js "hidden", replicate k (js "hidden") ++ [overflow]).
Proof.
  induction k as [|k IH]; [done |].
  change (lock_n (S (S k)) overflow)
    with (let '(o, held) := lock_n (S k) overflow in
          let '(o', prev) := lock_scroll o in (o', prev :: held)).
  by rewrite IH.
Qed.

Lemma restore_all_snoc (held : list jsstring) (prev overflow : jsstring) :
  restore_all (held ++ [prev]) overflow = prev.
Proof. unfold restore_all. by rewrite foldl_app. Qed.

(** X12.  While a modal is mounted the page does not scroll.  Modals that
    unmount in the reverse of their mount order give the page its own
    overflow style back; when the first one mounted unmounts before a later
    one, the last cleanup leaves the page locked. *)
Theorem scroll_lock_nesting (n : nat) (overflow : jsstring) :
  fst (lock_n (S n) overflow) = js "hidden" ∧
  restore_all (snd (lock_n (S n) overflow)) (fst (lock_n (S n) overflow)) = overflow ∧
  restore_all (reverse (snd (lock_n (S (S n)) overflow)))
              (fst (lock_n (S (S n)) overflow)) = js "hidden".
Proof.
  rewrite !lock_n_S. cbn [fst snd]. split; [done |]. split.
  - apply restore_all_snoc.
  - rewrite reverse_app, reverse_singleton, reverse_replicate.
    rewrite replicate_S_end, app_assoc. apply restore_all_snoc.
Qed.

(** ** RoundTimer *)










(** ** NewsRibbon *)

Lemma NewsRibbon_hidden (onClose : bool) (s : NewsRibbon.State)
      (evs : list NewsRibbon.Event) :
  NewsRibbon.isVisible s = false → NewsRibbon.run onClose s evs = s.
Proof.
  intros Hs. induction evs as [|ev evs IH]; [done |].
  unfold NewsRibbon.run in *. cbn [foldl]. unfold NewsRibbon.step at 2. by rewrite Hs.
Qed.

Lemma NewsRibbon_hover (onClose : bool) (s : NewsRibbon.State) (ev : NewsRibbon.Event) :
  NewsRibbon.isVisible s = true → ev ≠ NewsRibbon.ClickClose →
  NewsRibbon.isVisible (NewsRibbon.step onClose s ev) = true ∧
  NewsRibbon.closed (NewsRibbon.step onClose s ev) = NewsRibbon.closed s.
Proof. intros Hs Hev. unfold NewsRibbon.step. rewrite Hs. by destruct ev. Qed.

Lemma NewsRibbon_run (onClose : bool) (s : NewsRibbon.State)
      (evs : list NewsRibbon.Event) :
  NewsRibbon.isVisible s = true →
  let s' := NewsRibbon.run onClose s evs in
  if bool_decide (NewsRibbon.ClickClose ∈ evs)
  then NewsRibbon.isVisible s' = false ∧
       NewsRibbon.closed s' = (if onClose then S (NewsRibbon.closed s)
                               else NewsRibbon.closed s)
  else NewsRibbon.isVisible s' = true ∧ NewsRibbon.closed s' = NewsRibbon.closed s.
Proof.
  revert s. induction evs as [|ev evs IH]; intros s Hs; [done |].
  cbv zeta. change (NewsRibbon.run onClose s (ev :: evs))
    with (NewsRibbon.run onClose (NewsRibbon.step onClose s ev) evs).
  destruct (decide (ev = NewsRibbon.ClickClose)) as [-> | Hev].
  - rewrite bool_decide_eq_true_2 by (apply elem_of_cons; by left).
    rewrite NewsRibbon_hidden; unfold NewsRibbon.step; by rewrite Hs.
  - destruct (NewsRibbon_hover onClose s ev Hs Hev) as [Hv Hc].
    specialize (IH _ Hv). cbv zeta in IH. rewrite Hc in IH.
    rewrite (bool_decide_ext (NewsRibbon.ClickClose ∈ ev :: evs)
                             (NewsRibbon.ClickClose ∈ evs)); [exact IH |].
    rewrite elem_of_cons. naive_solver.
Qed.

(** X16.  The ribbon calls [onClose] at most once, whatever is clicked or
    hovered: exactly once when the prop is given and the close button was
    clicked, and from that click on the ribbon is hidden. *)
Theorem NewsRibbon_closes_once (onClose : bool) (evs : list NewsRibbon.Event) :
  let s := NewsRibbon.run onClose NewsRibbon.initial evs in
  NewsRibbon.closed s ≤ 1 ∧
  (NewsRibbon.closed s = 1 ↔ onClose = true ∧ NewsRibbon.ClickClose ∈ evs) ∧
  (NewsRibbon.isVisible s = false ↔ NewsRibbon.ClickClose ∈ evs).
Proof.
  pose proof (NewsRibbon_run onClose NewsRibbon.initial evs eq_refl) as H.
  cbv zeta in *. case_bool_decide as Hin; destruct H as [-> ->]; cbn.
  - destruct onClose; repeat split; try done; try lia; by intros [? _].
  - repeat split; try done; try lia; by intros [_ ?].
Qed.

(** ** Worked examples on the sample platform *)

Abbreviation File0 := nat.

Abbreviation host0 :=
  ({| clock := 0; localStorage := empty_storage; blobs_made := 0;
      blobs_live := ∅; calls := [] |} : Host File0).

Abbreviation step0 := (step sample_new_URL sample_JSON_stringify File0 sample_blob_id).
Abbreviation run0 := (run sample_new_URL sample_JSON_stringify File0 sample_blob_id).
Abbreviation mount0 := (mount sample_JSON_parse File0).

Abbreviation values0 :=
  {| avatarUrl := None; name := js ""; bio := js ""; twitterLink := js "";
     streamerMode := false |}.

(** The state after typing the name "Nova", a bio of [n] letters and the link
    "https://x.com/nova". *)
Abbreviation nova n :=
  {| values := {| avatarUrl := None; name := js "Nova"; bio := replicate n 97%N;
                  twitterLink := js "https://x.com/nova"; streamerMode := false |};
     errors := no_errors; timer := None |}.

Lemma isValidTwitterUrl_spec_witness :
  isValidTwitterUrl sample_new_URL (js "https://example.com/x") = false ∧
  isValidTwitterUrl sample_new_URL (js "https://www.x.com/handle") = true ∧
  isValidTwitterUrl sample_new_URL (js "https://twitter.com/handle") = true.
Proof.
  pose proof (isValidTwitterUrl_spec sample_new_URL) as H.
  destruct H as (_ & _ & _ & _ & _ & _ & _ & _ & H1 & H2 & H3);
    [vm_compute; reflexivity .. |].
  repeat split; assumption.
Defined.

Lemma handleSave_valid_witness :
  let h' := snd (handleSave sample_new_URL sample_JSON_stringify File0 (nova 100) host0) in
  draft_writes (calls_since host0 h') = [(0, values (nova 100))] ∧
  toast_count (calls_since host0 h') = 1 ∧
  close_count (calls_since host0 h') = 1 ∧
  items (localStorage h') !! DRAFT_KEY
  = Some (sample_JSON_stringify (to_object (values (nova 100)))).
Proof.
  pose proof (handleSave_valid sample_new_URL sample_JSON_stringify File0
                (nova 100) host0) as H.
  destruct H as (_ & _ & Hw & Ht & Hc & _ & Hs & _);
    [by vm_compute | exact (le_n 100) | by vm_compute |].
  intros h'. split; [exact Hw |]. split; [exact Ht |]. split; [exact Hc |].
  by apply Hs.
Defined.

(** The scenario of the specification: "Nova" with a bio of 105 characters is
    refused with the bio error alone and nothing is written or closed; with
    the bio cut to 100 the save goes through, the stored draft has a bio of
    100 characters and the close callback is called once. *)
Example nova_scenario :
  let s := {| modal := Some (nova 105); host := host0 |} in
  let s1 := step0 s Save in
  let s2 := run0 s1 [ChangeBio (take 100 (replicate 105 97%N)); Save] in
  (errors <$> modal s1)
  = Some {| err_name := None;
            err_bio := Some (js "Bio must be 100 characters or fewer.");
            err_twitterLink := None |} ∧
  calls (host s1) = [] ∧
  (length ∘ bio ∘ snd <$> draft_writes (calls (host s2))) = [100] ∧
  close_count (calls (host s2)) = 1.
Proof. vm_compute. repeat split. Qed.

Lemma handleSave_invalid_witness :
  snd (handleSave sample_new_URL sample_JSON_stringify File0 (nova 105) host0) = host0 ∧
  ∃ s, mount0 (Some {| p_avatarUrl := None; p_name := Some (js ""); p_bio := Some (js "");
                       p_twitterLink := Some (js ""); p_streamerMode := Some false |})
              host0 = Some s ∧
       host (step0 s Save) = host0 ∧
       (errors <$> modal (step0 s Save))
       = Some {| err_name := Some (js "Name cannot be empty.");
                 err_bio := None; err_twitterLink := None |}.
Proof.
  pose proof (handleSave_invalid sample_new_URL sample_JSON_parse sample_JSON_stringify
                File0 sample_blob_id (nova 105) host0 host0) as H.
  destruct H as [(Hh & _) Hs].
  - right. left. vm_compute. lia.
  - reflexivity.
  - split; [exact Hh | exact Hs].
Defined.

Lemma initial_bio_untyped_witness :
  let ls := {| items := {[ DRAFT_KEY := sample_raw ]}; denied := false; full := false |} in
  init_bio (initial_state sample_JSON_parse None ls) = JNum (Finite 5 0) ∧
  typed (initial_state sample_JSON_parse None ls) = None.
Proof.
  pose proof (initial_bio_untyped sample_JSON_parse None
                {| items := {[ DRAFT_KEY := sample_raw ]}; denied := false; full := false |}
                sample_raw {[ js "bio" := JNum (Finite 5 0) ]} (JNum (Finite 5 0))) as H.
  destruct H as (_ & Hb & Ht);
    [by vm_compute | by vm_compute | by vm_compute | by vm_compute | by intros s |].
  split; [exact Hb | exact Ht].
Defined.

(** The modal just mounted on the sample host, without initial values. *)
Abbreviation fresh :=
  ({| modal := Some {| values := values0; errors := no_errors;
                       timer := Some (150, values0) |};
      host := host0 |} : System File0).

Lemma debounce_coalesces_witness :
  let rest := [(40, SetName (js "No")); (100, ToggleStreamer); (149, Upload 7)] in
  let s' := run0 (step0 fresh (ChangeName (js "N"))) (burst_events rest) in
  ∃ snapshot,
    current s' = Some snapshot ∧
    draft_writes (calls_since host0 (host (step0 s' (Elapse 149)))) = [] ∧
    draft_writes (calls_since host0 (host (step0 s' (Elapse 150))))
    = [(289 + 150, snapshot)].
Proof.
  intros rest s'.
  destruct (debounce_coalesces sample_new_URL sample_JSON_stringify File0 sample_blob_id
              fresh {| values := values0; errors := no_errors;
                       timer := Some (150, values0) |}
              (SetName (js "N")) rest)
    as (snapshot & Hc & Hshort & Hlong).
  - reflexivity.
  - by vm_compute.
  - repeat split; try (unfold DEBOUNCE; lia); by vm_compute.
  - exists snapshot. split; [exact Hc |].
    split; [apply Hshort | apply Hlong]; unfold DEBOUNCE; lia.
Defined.

Lemma upload_twice_witness :
  revocations (calls_since host0
                 (host (run0 {| modal := Some (nova 3); host := host0 |}
                             [UploadChange (Some 1); UploadChange (Some 2)])))
  = [js "blob:https://app.example/0"; js "blob:https://app.example/0"].
Proof.
  pose proof (upload_twice_revokes_first_twice sample_new_URL sample_JSON_stringify
                File0 sample_blob_id (nova 3) host0 1 2) as H.
  destruct H as (_ & _ & Hr & _); [reflexivity | by vm_compute | reflexivity |].
  exact Hr.
Defined.

Lemma initial_avatar_witness :
  let s := {| modal := Some {| values := {| avatarUrl := Some (js "/img/me.png");
                                            name := js ""; bio := js "";
                                            twitterLink := js "";
                                            streamerMode := false |};
                               errors := no_errors;
                               timer := Some (150, {| avatarUrl := Some (js "/img/me.png");
                                                      name := js ""; bio := js "";
                                                      twitterLink := js "";
                                                      streamerMode := false |}) |};
              host := host0 |} in
  startsWith (js "/img/me.png") (js "blob:") = false ∧
  js "/img/me.png"
  ∉ revocations (calls_since host0 (host (run0 s [UploadChange (Some 1); Unmount]))).
Proof.
  intros s.
  pose proof (initial_avatar_revoked_iff_marked sample_new_URL sample_JSON_parse
                sample_JSON_stringify File0 sample_blob_id
                (Some {| p_avatarUrl := Some (Some (js "/img/me.png")); p_name := None;
                         p_bio := None; p_twitterLink := None; p_streamerMode := None |})
                host0 s (js "/img/me.png")) as H.
  destruct H as [Hnever _]; [reflexivity | reflexivity |].
  split; [reflexivity |]. by apply Hnever.
Defined.

(** An initial avatar that starts with "blob:" is revoked at teardown. *)
Lemma initial_blob_avatar_is_revoked :
  ∃ s, mount0 (Some {| p_avatarUrl := Some (Some (js "blob:https://app.example/77"));
                       p_name := None; p_bio := None; p_twitterLink := None;
                       p_streamerMode := None |}) host0 = Some s ∧
       revocations (calls_since host0 (host (run0 s [Unmount])))
       = [js "blob:https://app.example/77"].
Proof. eexists. split; [reflexivity | by vm_compute]. Qed.

Lemma dismissals_witness :
  close_count (calls_since host0
                 (host (run0 fresh [KeyDown (js "Escape"); BackdropMouseDown false;
                                    KeyDown (js "Escape")]))) = 3.
Proof.
  pose proof (dismissals_close_each_time sample_new_URL sample_JSON_stringify File0
                sample_blob_id fresh
                [KeyDown (js "Escape"); BackdropMouseDown false; KeyDown (js "Escape")])
    as H.
  destruct H as [Hcount _].
  - repeat (apply List.Forall_cons; [unfold dismissal; auto |]). apply List.Forall_nil.
  - apply Hcount. by eexists.
Defined.

(** Two Escape presses on a mounted modal call the close callback twice. *)
Lemma escape_twice_closes_twice :
  mount0 None host0 = Some fresh ∧
  close_count (calls_since host0
                 (host (run0 fresh [KeyDown (js "Escape"); KeyDown (js "Escape")]))) = 2.
Proof. split; [reflexivity | by vm_compute]. Qed.

(** The messages [validate] produces are not the ones the specification
    words. *)
Lemma validate_messages_differ :
  err_bio (fst (validate sample_new_URL (values (nova 101))))
  = Some (js "Bio must be 100 characters or fewer.") ∧
  js "Bio must be 100 characters or fewer." ≠ spec_bio_message ∧
  err_twitterLink
    (fst (validate sample_new_URL
            {| avatarUrl := None; name := js "Nova"; bio := js "";
               twitterLink := js "https://example.com/x"; streamerMode := false |}))
  = Some (js "Enter a valid X/Twitter URL.") ∧
  js "Enter a valid X/Twitter URL." ≠ spec_link_message.
Proof. repeat split; by vm_compute. Qed.

(** *** Worked examples for the further properties *)

(** A stored array: the modal opens on the defaults. *)
Lemma mount_without_object_draft_witness :
  let h := {| clock := 0;
              localStorage := {| items := {[ DRAFT_KEY := js "[]" ]};
                                 denied := false; full := false |};
              blobs_made := 0; blobs_live := ∅; calls := [] |} in
  mount (λ _, Return (JArr [])) File0 None h
  = Some {| modal := Some {| values := values0; errors := no_errors;
                             timer := Some (150, values0) |};
            host := h |}.
Proof.
  intros h.
  apply (mount_without_object_draft (λ _, Return (JArr [])) File0 None h).
  right. exists []. reflexivity.
Defined.

(** A draft with a bio of 105 letters, written and read back, wins over the
    host's values and comes back with a bio of 100. *)
Lemma draft_round_trip_witness :
  let d := values (nova 105) in
  let parse := λ raw, if bool_decide (raw = sample_JSON_stringify (to_object d))
                      then Return (to_object d) else Throws in
  typed (initial_state parse
           (Some {| p_avatarUrl := None; p_name := Some (js "Host name");
                    p_bio := None; p_twitterLink := None; p_streamerMode := Some true |})
           (writeDraft sample_JSON_stringify d empty_storage))
  = Some (values (nova 100)).
Proof.
  intros d parse.
  destruct (draft_round_trip parse sample_JSON_stringify d empty_storage
              (Some {| p_avatarUrl := None; p_name := Some (js "Host name");
                       p_bio := None; p_twitterLink := None;
                       p_streamerMode := Some true |})) as [_ H];
    [reflexivity | reflexivity | by vm_compute | by vm_compute |].
  exact H.
Defined.

Lemma accepted_hostnames_witness :
  isValidTwitterUrl sample_new_URL (js "https://www.twitter.com/nova") = true.
Proof.
  apply (accepted_hostnames sample_new_URL (js "https://www.twitter.com/nova")
           {| href := js "https://www.twitter.com/nova";
              hostname := js "www.twitter.com" |}).
  - by vm_compute.
  - reflexivity.
  - rewrite !elem_of_cons. auto.
Defined.

Lemma no_object_url_leak_witness :
  size (blobs_live (host (run0 fresh [UploadChange (Some 1); UploadChange (Some 2)]))) ≤ 1 ∧
  blobs_live (host (run0 fresh [UploadChange (Some 1); UploadChange (Some 2); Unmount])) = ∅.
Proof.
  split.
  - apply (no_object_url_leak sample_new_URL sample_JSON_parse sample_JSON_stringify File0
             sample_blob_id None host0 fresh
             [UploadChange (Some 1); UploadChange (Some 2)]); reflexivity.
  - apply (no_object_url_leak sample_new_URL sample_JSON_parse sample_JSON_stringify File0
             sample_blob_id None host0 fresh
             [UploadChange (Some 1); UploadChange (Some 2); Unmount]); reflexivity.
Defined.


Lemma errors_only_cleared_witness :
  let e := {| err_name := Some (js "Name cannot be empty."); err_bio := None;
              err_twitterLink := Some (js "Enter a valid X/Twitter URL.") |} in
  let m := {| values := values0; errors := e; timer := None |} in
  cleared {| err_name := None; err_bio := None;
             err_twitterLink := Some (js "Enter a valid X/Twitter URL.") |} e.
Proof.
  intros e m.
  apply (errors_only_cleared sample_new_URL sample_JSON_stringify File0 sample_blob_id
           {| modal := Some m; host := host0 |} m
           {| values := {| avatarUrl := None; name := js "N"; bio := js "";
                           twitterLink := js ""; streamerMode := false |};
              errors := {| err_name := None; err_bio := None;
                           err_twitterLink := Some (js "Enter a valid X/Twitter URL.") |};
              timer := Some (150, {| avatarUrl := None; name := js "N"; bio := js "";
                                     twitterLink := js ""; streamerMode := false |}) |}
           (ChangeName (js "N"))).
  - discriminate.
  - reflexivity.
  - reflexivity.
Defined.


